(** * A shallow embedding of the [Result<V, E>] class (src/src/status-error.ts)

    The class keeps two private fields, [_error : E | undefined] and
    [_data : V | undefined], and discriminates its two states by the
    truthiness of those fields.  What the methods do therefore depends on
    the JavaScript notions of [undefined], truthiness, [typeof],
    [Array.isArray] and [Object.keys], on the identity of the object a
    method returns ([return this] against [new Result()]), and on when the
    caller's callbacks run.  The embedding keeps the three:

    - [Js.value] is the universe of JavaScript values a [V] can hold;
    - [Result] objects live in a heap, a method receives the location of
      its receiver and returns a location;
    - callbacks are computations over the caller's own state (the
      "world"), which may return or throw. *)

From Stdlib Require Import ZArith DecimalString.
From Stdlib Require Import Floats.SpecFloat.
From stdpp Require Import base list strings.

Open Scope string_scope.
Open Scope list_scope.

(** ** JavaScript values *)

Module Js.

(** Own properties are triples: key, [enumerable] attribute, value.  An
    array is an object with a [length]: its elements are own properties keyed
    by their index (a hole is an index that has no property), and it may have
    other own properties; [props] lists them all, in the order [Object.keys]
    visits them. *)
#[warnings="-register-all"]
Inductive value : Type :=
| undefined
| null
| boolean (b : bool)
| number (x : spec_float)                    (* IEEE 754 binary64 datum *)
| bigint (z : Z)
| str (s : string)
| symbol (description : string)
| closure (id : nat) (props : list (string * bool * value))
| array (len : nat) (props : list (string * bool * value))
| object (props : list (string * bool * value)).

(** The numeric literal [z], for integral [z], rounded to binary64. *)
Definition num (z : Z) : value :=
  number (binary_normalize 53 1024 z 0 false).

(** Abstract operation ToBoolean: the falsy values are [undefined], [null],
    [false], [+0], [-0], [NaN], [0n] and the empty string. *)
Definition number_truthy (x : spec_float) : bool :=
  match x with
  | S754_zero _ | S754_nan => false
  | S754_infinity _ | S754_finite _ _ _ => true
  end.

Definition ToBoolean (v : value) : bool :=
  match v with
  | undefined | null => false
  | boolean b => b
  | number x => number_truthy x
  | bigint z => negb (Z.eqb z 0)
  | str s => negb (String.eqb s "")
  | symbol _ | closure _ _ | array _ _ | object _ => true
  end.

(** The [typeof] operator. *)
Definition typeof (v : value) : string :=
  match v with
  | undefined => "undefined"
  | null => "object"
  | boolean _ => "boolean"
  | number _ => "number"
  | bigint _ => "bigint"
  | str _ => "string"
  | symbol _ => "symbol"
  | closure _ _ => "function"
  | array _ _ | object _ => "object"
  end.

(** [data === null], [data === undefined]. *)
Definition is_null (v : value) : bool :=
  match v with null => true | _ => false end.

Definition is_undefined (v : value) : bool :=
  match v with undefined => true | _ => false end.

Definition Array_isArray (v : value) : bool :=
  match v with array _ _ => true | _ => false end.

(** [data.length] of an array: holes count, other properties do not. *)
Definition array_length (v : value) : nat :=
  match v with array len _ => len | _ => 0 end.

(** The primitive values; functions, arrays and objects are objects. *)
Definition is_primitive (v : value) : bool :=
  match v with
  | undefined | null | boolean _ | number _ | bigint _ | str _ | symbol _ => true
  | closure _ _ | array _ _ | object _ => false
  end.

(** Exceptions: the [TypeError] the built-ins raise, or any thrown value. *)
Inductive exn : Type :=
| TypeError (msg : string)
| Thrown (v : value).

Definition index_key (i : nat) : string :=
  NilEmpty.string_of_uint (Nat.to_uint i).

(** Keys of the own enumerable string-keyed properties, in order. *)
Definition enumerable_keys (props : list (string * bool * value)) : list string :=
  omap (fun '(key, enumerable, _) => if enumerable : bool then Some key else None)
       props.

(** The array literal [[x0, x1, ...]]: every element an enumerable own
    property, and no other property. *)
Definition array_of (elements : list value) : value :=
  array (length elements) (imap (fun i x => (index_key i, true, x)) elements).

(** [Object.keys]: throws on [undefined] and [null], boxes the other
    primitives (a string has its indices as keys, the rest none). *)
Definition Object_keys (v : value) : exn + list string :=
  match v with
  | undefined | null =>
      inl (TypeError "Cannot convert undefined or null to object")
  | boolean _ | number _ | bigint _ | symbol _ => inr []
  | str s => inr (index_key <$> seq 0 (String.length s))
  | closure _ props => inr (enumerable_keys props)
  | array _ props => inr (enumerable_keys props)
  | object props => inr (enumerable_keys props)
  end.

(** How a call ends: it returns [a], or throws [e]; [s] is the state it
    leaves behind. *)
Inductive completion (S A : Type) : Type :=
| Return (a : A) (s : S)
| Throw (e : exn) (s : S).

Arguments Return {S A} a s.
Arguments Throw {S A} e s.

End Js.

Export Js.

(** ** The class [Result<V, E extends Error>] *)

Module Result.

Definition loc : Type := nat.

(** The two private fields.  [_error : E | undefined] is [None] when
    undefined; as [E extends Error] is an object type, [!this._error] holds
    exactly then.  [_data : V | undefined] is a JavaScript value, and a
    stored [undefined] is the same as a field never written. *)
Record t (E : Type) : Type := mk { _error : option E; _data : value }.

Arguments mk {E} _error _data.
Arguments _error {E} _.
Arguments _data {E} _.

(** The heap of [Result] objects, and the state [W] of the caller's program.
    [W] is the only thing a callback can read and change: the fields of a
    [Result] are private, and a JavaScript value does not hold a [Result]. *)
Record store (E W : Type) : Type := mkStore { heap : list (t E); world : W }.

Arguments mkStore {E W} heap world.
Arguments heap {E W} _.
Arguments world {E W} _.

Definition Js (E W A : Type) : Type := store E W -> completion (store E W) A.

Definition ret {E W A : Type} (a : A) : Js E W A := fun s => Return a s.

Definition bind {E W A B : Type} (m : Js E W A) (k : A -> Js E W B) : Js E W B :=
  fun s =>
    match m s with
    | Return a s' => k a s'
    | Throw e s' => Throw e s'
    end.

Declare Scope js_scope.
Delimit Scope js_scope with js.
Notation "x <- m ;; k" := (bind m (fun x => k))
  (at level 100, m at next level, right associativity) : js_scope.
Notation "m ;; k" := (bind m (fun _ => k))
  (at level 100, right associativity) : js_scope.
Local Open Scope js_scope.

(** A function passed by the caller: it runs on the world alone. *)
Definition callback (W A B : Type) : Type := A -> W -> completion W B.

Section Class.

Context {E W : Type}.

#[local] Abbreviation Js := (Js E W).
#[local] Abbreviation callback := (callback W).
#[local] Abbreviation t := (t E).

(** A built-in that may throw. *)
Definition builtin {A : Type} (r : exn + A) : Js A := fun s =>
  match r with
  | inr a => Return a s
  | inl e => Throw e s
  end.

Definition call {A B : Type} (f : callback A B) (x : A) : Js B := fun s =>
  match f x (world s) with
  | Return y w => Return y (mkStore (heap s) w)
  | Throw e w => Throw e (mkStore (heap s) w)
  end.

(** [new Result<V, E>()]: a fresh object, both fields undefined. *)
Definition new : Js loc := fun s =>
  Return (length (heap s)) (mkStore (heap s ++ [mk None undefined]) (world s)).

(** Reading the fields of [this]; a reference to no object reads as
    [undefined], whose properties cannot be read. *)
Definition deref (this : loc) : Js t := fun s =>
  match heap s !! this with
  | Some o => Return o s
  | None => Throw (TypeError "Cannot read properties of undefined") s
  end.

(** [res._error = error] and [res._data = value]. *)
Definition set__error (res : loc) (error : E) : Js unit := fun s =>
  Return tt (mkStore (alter (fun o => mk (Some error) (_data o)) res (heap s))
                     (world s)).

Definition set__data (res : loc) (value : value) : Js unit := fun s =>
  Return tt (mkStore (alter (fun o => mk (_error o) value) res (heap s))
                     (world s)).

(** [static failure<V, E>(error: E)] *)
Definition failure (error : E) : Js loc :=
  res <- new ;;
  set__error res error ;;
  ret res.

(** [static of<V, E>(value: V)]; [of] is reserved, hence the underscore. *)
Definition of_ (value : value) : Js loc :=
  res <- new ;;
  set__data res value ;;
  ret res.

(** [static fromNullable<V, E>(data: Nullable<V>)]: the checks run when the
    returned function is applied to [error]. *)
Definition fromNullable (data : value) : E -> Js loc := fun error =>
  if is_null data || is_undefined data then failure error
  else if Array_isArray data && (array_length data =? 0)%nat then failure error
  else
    empty_object <-
      (if String.eqb (typeof data) "object"
       then keys <- builtin (Object_keys data) ;; ret (length keys =? 0)%nat
       else ret false) ;;
    if empty_object : bool then failure error
    else of_ data.

(** [get error(): E | undefined] *)
Definition error (this : loc) : Js (option E) :=
  o <- deref this ;;
  ret (_error o).

(** [get data(): V] *)
Definition data (this : loc) : Js value :=
  o <- deref this ;;
  ret (_data o).

(** [apply<T>(func: (value: V) => T): Result<T, E>] *)
Definition apply (func : callback value value) (this : loc) : Js loc :=
  o <- deref this ;;
  match _error o with
  | None => y <- call func (_data o) ;; of_ y
  | Some e => failure e
  end.

(** [applyOnFailure(func: (value: E) => E): Result<V, E>] *)
Definition applyOnFailure (func : callback E E) (this : loc) : Js loc :=
  o <- deref this ;;
  match _error o with
  | Some e => e' <- call func e ;; failure e'
  | None => of_ (_data o)
  end.

(** [fold<L, R>(onData: (arg: V) => R, onError: (e: E) => L): L | R] *)
Definition fold {R : Type} (onData : callback value R) (onError : callback E R)
    (this : loc) : Js R :=
  o <- deref this ;;
  match _error o with
  | None => call onData (_data o)
  | Some e => call onError e
  end.

(** [failOnCondition(condition: (arg: V) => boolean, error: E)] *)
Definition failOnCondition (condition : callback value bool) (error : E)
    (this : loc) : Js loc :=
  o <- deref this ;;
  match _error o with
  | Some e => failure e
  | None =>
      c <- call condition (_data o) ;;
      if c : bool then failure error
      else of_ (_data o)
  end.

(** [onFailureReturn(newValue: V, filter?: (e: E) => boolean)];
    [!filter || filter(this._error)] calls [filter] only when it is given. *)
Definition onFailureReturn (newValue : value) (filter : option (callback E bool))
    (this : loc) : Js loc :=
  o <- deref this ;;
  match _error o with
  | None => of_ (_data o)
  | Some e =>
      replace_ <-
        match filter with
        | None => ret true
        | Some f => call f e
        end ;;
      if replace_ : bool then of_ newValue
      else failure e
  end.

(** [onFailurePeek(func: (arg: E) => void): Result<V, E>] *)
Definition onFailurePeek {B : Type} (func : callback E B) (this : loc) : Js loc :=
  o <- deref this ;;
  match _error o with
  | Some e => call func e ;; ret tt
  | None => ret tt
  end ;;
  ret this.

(** [peek(func: (arg: V) => void): Result<V, E>] *)
Definition peek {B : Type} (func : callback value B) (this : loc) : Js loc :=
  o <- deref this ;;
  (if ToBoolean (_data o) then call func (_data o) ;; ret tt
   else ret tt) ;;
  ret this.

End Class.

(** The names the class declares: the static factories, and the accessors
    and methods of its prototype. *)
Definition static_members : list string :=
  ["failure"; "of"; "fromNullable"].

Definition prototype_members : list string :=
  ["error"; "data"; "apply"; "applyOnFailure"; "fold"; "failOnCondition";
   "onFailureReturn"; "onFailurePeek"; "peek"].

(** Whether the class declares a member called [name]. *)
Definition declares (name : string) : bool :=
  existsb (String.eqb name) (static_members ++ prototype_members).

(** *** Vocabulary for the statements *)

(** The states the two factories build: [Result.of(v)] has no error and
    holds [v]; [Result.failure(e)] holds [e] and never had [_data] written. *)
Definition Success {E : Type} (v : value) : t E := mk None v.
Definition Failure {E : Type} (e : E) : t E := mk (Some e) undefined.

(** A call-counting stub around [f]: the world carries the number of calls
    made so far, and every call, returning or throwing, adds one. *)
Definition counted {W A B : Type} (f : callback W A B) : callback (W * nat) A B :=
  fun x wn =>
    match f x (fst wn) with
    | Return y w' => Return y (w', S (snd wn))
    | Throw e w' => Throw e (w', S (snd wn))
    end.

(** [x => g(f(x))] *)
Definition compose {W A B C : Type} (f : callback W A B) (g : callback W B C)
    : callback W A C :=
  fun x w =>
    match f x w with
    | Return y w' => g y w'
    | Throw e w' => Throw e w'
    end.

(** The store a computation leaves behind, however it ends. *)
Definition final {S A : Type} (c : completion S A) : S :=
  match c with
  | Return _ s => s
  | Throw _ s => s
  end.

(** Two runs end alike: both return a [Result] with the same fields, or both
    throw the same exception; and they leave the same world. *)
Definition same_result {E W : Type} (c1 c2 : completion (store E W) loc) : Prop :=
  match c1, c2 with
  | Return l1 s1, Return l2 s2 =>
      is_Some (heap s1 !! l1) /\ heap s1 !! l1 = heap s2 !! l2
      /\ world s1 = world s2
  | Throw e1 s1, Throw e2 s2 => e1 = e2 /\ world s1 = world s2
  | _, _ => False
  end.

(** No object that exists before the call is changed by it. *)
Definition preserves {E W A : Type} (m : Js E W A) : Prop :=
  forall (s : store E W) (l : loc) (o : t E),
    heap s !! l = Some o -> heap (final (m s)) !! l = Some o.

(** A method that returns, returns an object that did not exist before. *)
Definition returns_fresh {E W : Type} (method : loc -> Js E W loc) : Prop :=
  forall (this : loc) (s s' : store E W) (o : t E) (l : loc),
    heap s !! this = Some o ->
    method this s = Return l s' ->
    l <> this /\ heap s !! l = None /\ is_Some (heap s' !! l).

(** How a method that ends in a factory leaves the heap: one more object, at
    the next location, when it returns; the heap as it was when it throws. *)
Definition allocates_one {E W : Type} (s : store E W)
    (c : completion (store E W) loc) : Prop :=
  match c with
  | Return l s' => l = length (heap s) /\ exists o, heap s' = heap s ++ [o]
  | Throw _ s' => heap s' = heap s
  end.

(** A method that returns, returns its receiver and allocates nothing. *)
Definition returns_this {E W : Type} (method : loc -> Js E W loc) : Prop :=
  forall (this : loc) (s s' : store E W) (l : loc),
    method this s = Return l s' ->
    l = this /\ heap s' = heap s.

End Result.

(** The built-in [Error]: what a plain [E] is in the tests. *)
Record Error : Type := mkError { name : string; message : string }.

Definition new_Error (msg : string) : Error := mkError "Error" msg.

(** ** Callbacks of the test suite (src/src/result.test.ts) *)

Module Fixtures.

(** [(x) => x * 2], on the numbers its type admits. *)
Definition double {W : Type} : Result.callback W value value := fun x w =>
  Return (match x with
          | number a => number (SFmul 53 1024 a (binary_normalize 53 1024 2 0 false))
          | _ => number S754_nan
          end) w.

(** [(x) => x > 40] *)
Definition gt40 {W : Type} : Result.callback W value bool := fun x w =>
  Return (match x with
          | number a =>
              match SFcompare a (binary_normalize 53 1024 40 0 false) with
              | Some Gt => true
              | _ => false
              end
          | _ => false
          end) w.

(** [(e) => e.message === "different error"] *)
Definition is_different_error {W : Type} : Result.callback W Error bool := fun e w =>
  Return (String.eqb (message e) "different error") w.

(** [(x) => { sideEffect = x; }]: the world is the variable it assigns. *)
Definition assign {A : Type} : Result.callback A A unit := fun x _ =>
  Return tt x.

(** [new Error("test error")] *)
Definition test_error : Error := new_Error "test error".

(** The state a test starts in: no [Result] yet, the test's variables [w]. *)
Definition empty_heap {W : Type} (w : W) : Result.store Error W :=
  Result.mkStore [] w.

(** [(e) => { sideEffect = e.message; }] *)
Definition assign_message : Result.callback string Error unit := fun e _ =>
  Return tt (message e).

End Fixtures.

(** ** The class [StatusError extends Error] (lines 1-30) *)

(** The numeric literal [z] as a binary64 datum: [num z] is [number (literal z)]. *)
Definition literal (z : Z) : spec_float := binary_normalize 53 1024 z 0 false.

Module StatusError.

(** The properties the constructor sets: [message] by [super(message)], then
    [status], [name] and [details] ([None] is [undefined]). *)
Record t : Type := mk {
  message : string;
  status : spec_float;
  name : string;
  details : option string
}.

(** [new StatusError(message, status, details?)] *)
Definition new (message : string) (status : spec_float) (details : option string) : t :=
  mk message status "StatusError" details.

(** The static factories; a default parameter value is used when the
    argument is [undefined] ([None]), and only then. *)
Definition NotFound (msg : option string) : t :=
  new (default "Not Found" msg) (literal 404) None.

Definition Internal (msg : option string) : t :=
  new (default "Internal Error" msg) (literal 500) None.

Definition BadRequest (msg : option string) : t :=
  new (default "Bad Request" msg) (literal 400) None.

Definition Forbidden (msg : option string) : t :=
  new (default "Not Allowed" msg) (literal 403) None.

(** [withDetails(details: string): StatusError] *)
Definition withDetails (details : string) (this : t) : t :=
  new (message this) (status this) (Some details).

(** [Error.prototype.toString], which the class inherits and a template
    literal calls. *)
Definition toString (this : t) : string :=
  if String.eqb (name this) "" then message this
  else if String.eqb (message this) "" then name this
  else (name this ++ ": " ++ message this)%string.

End StatusError.

(** ** The class [Result<V>] on [StatusError], and its logger (lines 287-402) *)

(** [type LogFunc = (msg: string) => void] and [interface Logger]: a logger
    writes to the part of the world that is not the logger variable. *)
Module Logger.

Definition LogFunc (W : Type) : Type := Result.callback W string unit.

Record t (W : Type) : Type := mk {
  debug : LogFunc W;
  info : LogFunc W;
  log : LogFunc W;
  warn : LogFunc W;
  error : LogFunc W
}.

Arguments mk {W} _ _ _ _ _.
Arguments debug {W} _.
Arguments info {W} _.
Arguments log {W} _.
Arguments warn {W} _.
Arguments error {W} _.

End Logger.

Module StatusResult.

Import Result.
Local Open Scope js_scope.

(** The world of a program that uses the module: the module variable
    [let logger: Logger], initially [console], and the rest. *)
Record env (W : Type) : Type := mkEnv { logger : Logger.t W; user : W }.

Arguments mkEnv {W} _ _.
Arguments logger {W} _.
Arguments user {W} _.

(** [{ msg?: string; status?: number }] *)
Record options : Type := mkOptions {
  msg : option string;
  status : option spec_float
}.

Section Class.

Context {W : Type}.

#[local] Abbreviation Js := (Js StatusError.t (env W)).
#[local] Abbreviation callback := (callback (env W)).

(** [export const setLogger = (l: Logger): void => { logger = l; }] *)
Definition setLogger (l : Logger.t W) : Js unit := fun s =>
  Return tt (mkStore (heap s) (mkEnv l (user (world s)))).

(** [logger.error(msg)], with the logger the variable holds now. *)
Definition logger_error (msg : string) : Js unit := fun s =>
  match Logger.error (logger (world s)) msg (user (world s)) with
  | Return _ u => Return tt (mkStore (heap s) (mkEnv (logger (world s)) u))
  | Throw e u => Throw e (mkStore (heap s) (mkEnv (logger (world s)) u))
  end.

(** [static failure<V>(error: StatusError)] *)
Definition failure (error : StatusError.t) : Js loc :=
  res <- new ;;
  set__error res error ;;
  ret res.

(** [static of<V>(value: V)] *)
Definition of_ (value : value) : Js loc :=
  res <- new ;;
  set__data res value ;;
  ret res.

(** [static fromNullable<V>(data: Nullable<V>)] *)
Definition fromNullable (data : value) : StatusError.t -> Js loc := fun error =>
  if is_null data || is_undefined data then failure error
  else if Array_isArray data && (array_length data =? 0)%nat then failure error
  else
    empty_object <-
      (if String.eqb (typeof data) "object"
       then keys <- builtin (Object_keys data) ;; ret (length keys =? 0)%nat
       else ret false) ;;
    if empty_object : bool then failure error
    else of_ data.

(** [get error(): StatusError | undefined] *)
Definition error (this : loc) : Js (option StatusError.t) :=
  o <- deref this ;;
  ret (_error o).

(** [get data(): V] *)
Definition data (this : loc) : Js value :=
  o <- deref this ;;
  ret (_data o).

(** [apply<T>(func: (value: V) => T): Result<T>] *)
Definition apply (func : callback value value) (this : loc) : Js loc :=
  o <- deref this ;;
  match _error o with
  | None => y <- call func (_data o) ;; of_ y
  | Some e => failure e
  end.

(** [applyOnError(func: (value: StatusError) => StatusError): Result<V>] *)
Definition applyOnError (func : callback StatusError.t StatusError.t) (this : loc)
    : Js loc :=
  o <- deref this ;;
  match _error o with
  | Some e => e' <- call func e ;; failure e'
  | None => of_ (_data o)
  end.

(** [fold<L, R>(onData: (arg: V) => R, onError: (e: StatusError) => L): L | R] *)
Definition fold {R : Type} (onData : callback value R)
    (onError : callback StatusError.t R) (this : loc) : Js R :=
  o <- deref this ;;
  match _error o with
  | None => call onData (_data o)
  | Some e => call onError e
  end.

(** [errorOnCondition(condition: (arg: V) => boolean, error: StatusError)] *)
Definition errorOnCondition (condition : callback value bool) (error : StatusError.t)
    (this : loc) : Js loc :=
  o <- deref this ;;
  match _error o with
  | Some e => failure e
  | None =>
      c <- call condition (_data o) ;;
      if c : bool then failure error
      else of_ (_data o)
  end.

(** ToBoolean of a [number | undefined]. *)
Definition filter_truthy (statusFilter : option spec_float) : bool :=
  match statusFilter with
  | Some x => number_truthy x
  | None => false
  end.

(** [statusFilter === this._error.status], both numbers once the filter is
    truthy: [NaN] equals nothing, the two zeros are equal. *)
Definition filter_matches (statusFilter : option spec_float) (status : spec_float)
    : bool :=
  match statusFilter with
  | Some x => SFeqb x status
  | None => false
  end.

(** [onErrorReturn(newValue: V, statusFilter?: number): Result<V>] *)
Definition onErrorReturn (newValue : value) (statusFilter : option spec_float)
    (this : loc) : Js loc :=
  o <- deref this ;;
  match _error o with
  | None => of_ (_data o)
  | Some e =>
      if negb (filter_truthy statusFilter)
         || filter_matches statusFilter (StatusError.status e)
      then of_ newValue
      else failure e
  end.

(** [options?.status ?? 500]: the default is taken when there are no
    options or no [status] in them, not when [status] is [0]. *)
Definition wanted_status (opts : option options) : spec_float :=
  default (literal 500) (opts ≫= status).

(** [!!options?.msg]: a message is given and is not the empty string. *)
Definition has_msg (opts : option options) : bool :=
  match opts ≫= msg with
  | Some m => negb (String.eqb m "")
  | None => false
  end.

(** [logOnError(options?: { msg?: string; status?: number }): Result<V>] *)
Definition logOnError (opts : option options) (this : loc) : Js loc :=
  o <- deref this ;;
  match _error o with
  | Some e =>
      if SFeqb (StatusError.status e) (wanted_status opts)
      then
        if has_msg opts
        then logger_error (default "" (opts ≫= msg))
        else logger_error ("Result contains error: " ++ StatusError.toString e)%string
      else ret tt
  | None => ret tt
  end ;;
  ret this.

End Class.

End StatusResult.

(** ** Vocabulary for the further properties *)

Module Laws.

Import Result.

(** A function without effects: it returns [f x] and leaves the world. *)
Definition pure {W A B : Type} (f : A -> B) : callback W A B :=
  fun x w => Return (f x) w.

(** A stub that appends [tag] to a log of calls, whether [f] returns or
    throws: the log tells which callbacks ran, and in which order. *)
Definition tagged {W A B : Type} (tag : string) (f : callback W A B)
    : callback (W * list string) A B :=
  fun x wl =>
    match f x (fst wl) with
    | Return y w' => Return y (w', snd wl ++ [tag])
    | Throw e w' => Throw e (w', snd wl ++ [tag])
    end.

(** A [Result] object holds an error or a value, never both. *)
Definition well_formed {E : Type} (o : t E) : Prop :=
  _error o = None \/ _data o = undefined.

(** Two runs end alike: they return the same value, or throw the same
    exception; and they leave the same world. *)
Definition same_value {E W R : Type} (c1 c2 : completion (store E W) R) : Prop :=
  match c1, c2 with
  | Return r1 s1, Return r2 s2 => r1 = r2 /\ world s1 = world s2
  | Throw e1 s1, Throw e2 s2 => e1 = e2 /\ world s1 = world s2
  | _, _ => False
  end.

(** How a method that ends in a factory leaves the heap: the old objects,
    and after them one built by [of] or by [failure]. *)
Definition appends_factory_object {E W : Type} (s : store E W)
    (c : completion (store E W) loc) : Prop :=
  match c with
  | Return l s' =>
      exists o, well_formed o /\ heap s' = heap s ++ [o]
  | Throw _ s' => heap s' = heap s
  end.

(** A computation keeps the heap well formed, however it ends. *)
Definition keeps_well_formed {E W A : Type} (m : Js E W A) : Prop :=
  forall s : store E W,
    Forall well_formed (heap s) -> Forall well_formed (heap (final (m s))).

(** The four static factories of [StatusError], in the order of the source. *)
Definition factories : list (option string -> StatusError.t) :=
  [StatusError.NotFound; StatusError.Internal; StatusError.BadRequest;
   StatusError.Forbidden].

(** [(e) => e.status === k] *)
Definition has_status {W : Type} (k : spec_float) : callback W StatusError.t bool :=
  pure (fun e => SFeqb k (StatusError.status e)).

(** A logger whose five methods append their level and message to a list. *)
Definition recorder : Logger.t (list (string * string)) :=
  let write (level : string) : Logger.LogFunc (list (string * string)) :=
    fun msg lines => Return tt (lines ++ [(level, msg)]) in
  Logger.mk (write "debug") (write "info") (write "log") (write "warn")
    (write "error").

(** [(e) => new Error(`transformed: ${e.message}`)], from the test suite. *)
Definition transformed {W : Type} : callback W Error Error :=
  pure (fun e => new_Error ("transformed: " ++ message e)%string).

(** [() => { throw "boom"; }] *)
Definition throws {W A B : Type} : callback W A B :=
  fun _ w => Throw (Thrown (str "boom")) w.

(** A logger that drops what it is given. *)
Definition silent {W : Type} : Logger.t W :=
  let drop : Logger.LogFunc W := fun _ w => Return tt w in
  Logger.mk drop drop drop drop drop.

End Laws.

(** * Properties *)

Import Result.
Local Open Scope js_scope.

(** ** The factories and the field reads, as equations *)

Section Equations.

Context {E W : Type}.
Implicit Types (s : store E W) (this : loc) (o : t E) (v : value) (e : E).

Lemma alter_last {A : Type} (f : A -> A) (l : list A) (x : A) :
  alter f (length l) (l ++ [x]) = l ++ [f x].
Proof.
  induction l as [| y l IH]; simpl; [reflexivity |].
  f_equal. exact IH.
Qed.

Lemma of_eq v s :
  of_ v s = Return (length (heap s)) (mkStore (heap s ++ [Success v]) (world s)).
Proof.
  unfold of_, bind, new, set__data, ret. simpl.
  rewrite alter_last. reflexivity.
Qed.

Lemma failure_eq e s :
  failure e s = Return (length (heap s)) (mkStore (heap s ++ [Failure e]) (world s)).
Proof.
  unfold failure, bind, new, set__error, ret. simpl.
  rewrite alter_last. reflexivity.
Qed.

Lemma deref_eq this s o :
  heap s !! this = Some o -> deref this s = Return o s.
Proof. intros H. unfold deref. rewrite H. reflexivity. Qed.

Lemma deref_dangling this s :
  heap s !! this = None ->
  deref this s = Throw (TypeError "Cannot read properties of undefined") s.
Proof. intros H. unfold deref. rewrite H. reflexivity. Qed.

Lemma bind_deref {A : Type} this s o (k : t E -> Js E W A) :
  heap s !! this = Some o -> bind (deref this) k s = k o s.
Proof. intros H. unfold bind. rewrite (deref_eq _ _ _ H). reflexivity. Qed.

(** What each method does, by the [_error] field of its receiver. *)
Lemma apply_no_error (f : callback W value value) this s v :
  heap s !! this = Some (mk None v) ->
  apply f this s = bind (call f v) of_ s.
Proof. intros H. unfold apply. erewrite bind_deref by exact H. reflexivity. Qed.

Lemma apply_error (f : callback W value value) this s e v :
  heap s !! this = Some (mk (Some e) v) ->
  apply f this s = failure e s.
Proof. intros H. unfold apply. erewrite bind_deref by exact H. reflexivity. Qed.

(** The fresh location is outside the old heap and holds the new object. *)
Lemma fresh_lookup (h : list (t E)) o : (h ++ [o]) !! length h = Some o.
Proof. rewrite lookup_app_r, Nat.sub_diag; [reflexivity | lia]. Qed.

Lemma old_lookup (h : list (t E)) o o' (l : loc) :
  h !! l = Some o -> (h ++ [o']) !! l = Some o.
Proof. intros H. apply lookup_app_l_Some. exact H. Qed.

End Equations.

(** Unfolds one method on a receiver whose fields are known. *)
Ltac js_method H :=
  erewrite bind_deref by exact H; cbn [_error _data Success Failure].

(** ** Construction and the accessors *)

Section Accessors.

Context {E W : Type}.
Implicit Types (s : store E W) (this : loc) (v : value) (e : E).

(** C7.  On [Success v] the [data] accessor returns [v] and the [error]
    accessor returns [undefined]; on [Failure e] the [error] accessor returns
    [e] and the [data] accessor returns [undefined].  All four reads return
    normally and leave the store as it was: neither accessor throws. *)
Theorem accessors_total this s :
  (forall v, heap s !! this = Some (Success v) ->
     data this s = Return v s /\ error this s = Return None s) /\
  (forall e, heap s !! this = Some (Failure e) ->
     error this s = Return (Some e) s /\ data this s = Return undefined s).
Proof.
  split; intros x H; unfold data, error; split; js_method H; reflexivity.
Qed.

End Accessors.

(** ** Transformation, conditional failure and recovery *)

Section Transformations.

Context {E W : Type}.
Implicit Types (h : list (t E)) (this : loc) (v : value) (e : E) (w : W) (n : nat).

(** C3.  [apply] on [Success v], with a [func] that returns [y] on [v],
    yields a new [Success y] and has called [func] exactly once (the call
    count goes from [n] to [n + 1], the world is the one that call left);
    [apply] on [Failure e] yields a new [Failure e] with the same error, for
    every [func], and has not called it (count and world untouched). *)
Theorem apply_calls_once (func : callback W value value) this h w n :
  (forall v y w',
     h !! this = Some (Success v) ->
     func v w = Return y w' ->
     apply (counted func) this (mkStore h (w, n))
     = Return (length h) (mkStore (h ++ [Success y]) (w', S n))) /\
  (forall e,
     h !! this = Some (Failure e) ->
     apply (counted func) this (mkStore h (w, n))
     = Return (length h) (mkStore (h ++ [Failure e]) (w, n))).
Proof.
  split.
  - intros v y w' H Hf. unfold apply. js_method H.
    unfold bind, call, counted. simpl. rewrite Hf.
    rewrite of_eq. reflexivity.
  - intros e H. unfold apply. js_method H.
    rewrite failure_eq. reflexivity.
Qed.

(** C6.  [failOnCondition] on [Failure e] yields a new [Failure e] for every
    predicate and does not evaluate it (no call is counted); on [Success v]
    it evaluates the predicate on [v] once and yields [Failure error] when
    the answer is [true], dropping [v], and [Success v] when it is [false]. *)
Theorem failOnCondition_spec (condition : callback W value bool) (error : E)
    this h w n :
  (forall e,
     h !! this = Some (Failure e) ->
     failOnCondition (counted condition) error this (mkStore h (w, n))
     = Return (length h) (mkStore (h ++ [Failure e]) (w, n))) /\
  (forall v c w',
     h !! this = Some (Success v) ->
     condition v w = Return c w' ->
     failOnCondition (counted condition) error this (mkStore h (w, n))
     = Return (length h)
         (mkStore (h ++ [if c then Failure error else Success v]) (w', S n))).
Proof.
  split.
  - intros e H. unfold failOnCondition. js_method H.
    rewrite failure_eq. reflexivity.
  - intros v c w' H Hc. unfold failOnCondition. js_method H.
    unfold bind, call, counted. simpl. rewrite Hc.
    destruct c; [rewrite failure_eq | rewrite of_eq]; reflexivity.
Qed.

(** C5.  [onFailureReturn] on [Success v] yields [Success v] whatever the
    fallback and the filter, without calling the filter; on [Failure e] with
    no filter it yields [Success newValue]; on [Failure e] with a filter that
    answers [b] on [e] it yields [Success newValue] when [b] is [true] and a
    [Failure] with the same [e] when [b] is [false]. *)
Theorem onFailureReturn_spec (newValue : value) this (s : store E W) :
  (forall v filter,
     heap s !! this = Some (Success v) ->
     onFailureReturn newValue filter this s
     = Return (length (heap s)) (mkStore (heap s ++ [Success v]) (world s))) /\
  (forall e,
     heap s !! this = Some (Failure e) ->
     onFailureReturn newValue None this s
     = Return (length (heap s))
         (mkStore (heap s ++ [Success newValue]) (world s))) /\
  (forall e (filter : callback W E bool) b w',
     heap s !! this = Some (Failure e) ->
     filter e (world s) = Return b w' ->
     onFailureReturn newValue (Some filter) this s
     = Return (length (heap s))
         (mkStore (heap s ++ [if b then Success newValue else Failure e]) w')).
Proof.
  split; [| split].
  - intros v filter H. unfold onFailureReturn. js_method H.
    rewrite of_eq. reflexivity.
  - intros e H. unfold onFailureReturn. js_method H.
    unfold bind, ret. rewrite of_eq. reflexivity.
  - intros e filter b w' H Hf. unfold onFailureReturn. js_method H.
    unfold bind, call. rewrite Hf.
    destruct b; [rewrite of_eq | rewrite failure_eq]; reflexivity.
Qed.

End Transformations.

(** ** Lifting a nullable value *)

Section Lifting.

Context {E W : Type}.
Implicit Types (s : store E W) (data : value) (error : E).

(** The keyed check cannot come first: [Object.keys] throws on exactly the
    two values the first check of [fromNullable] removes. *)
Lemma Object_keys_throws_iff data :
  (exists ex, Object_keys data = inl ex) <-> data = null \/ data = undefined.
Proof.
  split.
  - intros [ex H]. destruct data; simpl in H; try discriminate; auto.
  - intros [-> | ->]; eexists; reflexivity.
Qed.

Lemma length_eqb_nil {A : Type} (l : list A) :
  (length l =? 0)%nat = true <-> l = [].
Proof. destruct l; simpl; split; intros; congruence. Qed.

(** The two factories never build the same object. *)
Lemma failure_is_not_success (h : list (t E)) (l : loc) (w : W) error data :
  Return l (mkStore (h ++ [Failure error]) w)
  <> Return l (mkStore (h ++ [Success data]) w).
Proof.
  intros H. injection H as H. apply app_inv_head in H. discriminate H.
Qed.

(** C2, as the code has it.  [fromNullable data error] always returns, and
    it returns [Failure error] exactly when [data] is [null] or [undefined],
    or is an array of length zero, or has [typeof data] equal to ["object"]
    and no own enumerable key; for every other [data] it returns
    [Success data].  A function is such another [data], whatever its keys:
    its [typeof] is ["function"].  The null check is first: the keyed check,
    which would throw on [null], is never reached there. *)
Theorem fromNullable_spec data error s :
  let empty :=
    (data = null \/ data = undefined) \/
    (exists props, data = array 0 props) \/
    (typeof data = "object" /\ Object_keys data = inr []) in
  (empty <->
   fromNullable data error s
   = Return (length (heap s)) (mkStore (heap s ++ [Failure error]) (world s))) /\
  (~ empty <->
   fromNullable data error s
   = Return (length (heap s)) (mkStore (heap s ++ [Success data]) (world s))) /\
  (forall id props,
     data = closure id props ->
     fromNullable data error s
     = Return (length (heap s)) (mkStore (heap s ++ [Success data]) (world s))).
Proof.
  intros empty.
  assert (Hyes : empty -> fromNullable data error s
    = Return (length (heap s)) (mkStore (heap s ++ [Failure error]) (world s))).
  { subst empty. unfold fromNullable.
    intros [[-> | ->] | [[props ->] | [Hty Hkeys]]]; simpl;
      try (rewrite failure_eq; reflexivity).
    destruct data as [| | b | x | z | t | d | id props | len props | props];
      simpl in Hty, Hkeys; try discriminate; simpl.
    - destruct len as [| len]; simpl; [apply failure_eq |].
      unfold bind, builtin, ret. simpl. injection Hkeys as ->. apply failure_eq.
    - unfold bind, builtin, ret. simpl. injection Hkeys as ->. apply failure_eq. }
  assert (Hno : ~ empty -> fromNullable data error s
    = Return (length (heap s)) (mkStore (heap s ++ [Success data]) (world s))).
  { subst empty. unfold fromNullable. intros Hne.
    destruct data as [| | b | x | z | t | d | id props | len props | props];
      simpl; unfold bind, builtin, ret; simpl; try apply of_eq.
    - exfalso. apply Hne. left. right. reflexivity.
    - exfalso. apply Hne. left. left. reflexivity.
    - destruct len as [| len]; simpl.
      { exfalso. apply Hne. right. left. exists props. reflexivity. }
      destruct (length _ =? 0)%nat eqn:Hlen; [| apply of_eq].
      exfalso. apply Hne. right. right. split; [reflexivity |].
      apply length_eqb_nil in Hlen. simpl. f_equal. exact Hlen.
    - destruct (length _ =? 0)%nat eqn:Hlen; [| apply of_eq].
      exfalso. apply Hne. right. right. split; [reflexivity |].
      apply length_eqb_nil in Hlen. simpl. f_equal. exact Hlen. }
  assert (Hdec : empty \/ ~ empty).
  { subst empty.
    destruct data as [| | b | x | z | t | d | id props | len props | props];
      try (right; intros [[H | H] | [[? H] | [H _]]]; discriminate H);
      try (left; left; auto; fail).
    - destruct len as [| len]; [left; right; left; exists props; reflexivity |].
      destruct (enumerable_keys props) as [| k ks] eqn:Hk.
      + left. right. right. simpl. rewrite Hk. auto.
      + right. intros [[H | H] | [[? H] | [_ H]]]; try discriminate H.
        simpl in H. rewrite Hk in H. discriminate H.
    - destruct (enumerable_keys props) as [| k ks] eqn:Hk.
      + left. right. right. simpl. rewrite Hk. auto.
      + right. intros [[H | H] | [[? H] | [_ H]]]; try discriminate H.
        simpl in H. rewrite Hk in H. discriminate H. }
  split; [| split]; [split | split |]; auto.
  - intros Hres. destruct Hdec as [Hy | Hn]; [exact Hy |].
    rewrite (Hno Hn) in Hres. symmetry in Hres.
    destruct (failure_is_not_success _ _ _ _ _ Hres).
  - intros Hres Hy. rewrite (Hyes Hy) in Hres.
    destruct (failure_is_not_success _ _ _ _ _ Hres).
  - intros id props ->. apply Hno.
    intros [[H | H] | [[? H] | [H _]]]; discriminate H.
Qed.

End Lifting.

(** ** Composition of transformations *)

Section Composition.

Context {E W : Type}.
Implicit Types (s : store E W) (this : loc).

(** C9.  For every receiver and every [f] and [g], [r.apply(f).apply(g)]
    and [r.apply(x => g(f(x)))] end alike: both return a [Result] with the
    same fields (tag and payload), or both throw the same exception, and they
    leave the same world behind. *)
Theorem apply_compose (f g : callback W value value) this s :
  same_result (bind (apply f this) (apply g) s) (apply (compose f g) this s).
Proof.
  destruct (heap s !! this) as [[[e |] v] |] eqn:H.
  - unfold bind. rewrite !(apply_error _ _ _ _ _ H), failure_eq.
    erewrite apply_error by apply fresh_lookup.
    rewrite failure_eq. cbn [same_result heap world].
    rewrite !fresh_lookup. auto.
  - rewrite (apply_no_error (compose f g) _ _ _ H).
    unfold bind at 1. rewrite (apply_no_error f _ _ _ H).
    unfold bind, call, compose.
    destruct (f v (world s)) as [y w' | ex w']; [| simpl; auto].
    rewrite of_eq. cbn [heap world].
    erewrite apply_no_error by apply fresh_lookup.
    unfold bind, call. cbn [heap world].
    destruct (g y w') as [z w'' | ex w'']; [| simpl; auto].
    rewrite !of_eq. cbn [same_result heap world].
    rewrite !fresh_lookup. auto.
  - unfold bind at 1. unfold apply, bind.
    rewrite (deref_dangling _ _ H). simpl. auto.
Qed.

End Composition.

(** ** Side-effecting inspection *)

Section Peeking.

Context {E W : Type}.
Implicit Types (h : list (t E)) (this : loc) (v : value) (e : E) (w : W) (n : nat).

(** [peek] on a [Success] with a truthy value calls [func] once on it and
    returns the receiver. *)
Lemma peek_truthy {B : Type} (func : callback W value B) this h w n v (y : B) w' :
  h !! this = Some (Success v) ->
  ToBoolean v = true ->
  func v w = Return y w' ->
  peek (counted func) this (mkStore h (w, n)) = Return this (mkStore h (w', S n)).
Proof.
  intros H Htruthy Hf. unfold peek. js_method H. rewrite Htruthy.
  unfold bind, call, counted, ret. simpl. rewrite Hf. reflexivity.
Qed.

(** [peek] on a [Failure] does not call [func] and returns the receiver. *)
Lemma peek_Failure {B : Type} (func : callback W value B) this (s : store E W) e :
  heap s !! this = Some (Failure e) ->
  peek func this s = Return this s.
Proof. intros H. unfold peek. js_method H. reflexivity. Qed.

(** [onFailurePeek] calls [func] once on the error of a [Failure], never on
    a [Success], and returns the receiver. *)
Lemma onFailurePeek_spec {B : Type} (func : callback W E B) this h w n :
  (forall e (y : B) w',
     h !! this = Some (Failure e) ->
     func e w = Return y w' ->
     onFailurePeek (counted func) this (mkStore h (w, n))
     = Return this (mkStore h (w', S n))) /\
  (forall v,
     h !! this = Some (Success v) ->
     onFailurePeek (counted func) this (mkStore h (w, n))
     = Return this (mkStore h (w, n))).
Proof.
  split.
  - intros e y w' H Hf. unfold onFailurePeek. js_method H.
    unfold bind, call, counted, ret. simpl. rewrite Hf. reflexivity.
  - intros v H. unfold onFailurePeek. js_method H. reflexivity.
Qed.

(** C1, where the code departs from it.  On [Result.of(0)], [Result.of("")]
    and [Result.of(false)], all three a [Success], [peek] returns the receiver
    without calling [func]: the call count stays [n] and the world stays [w],
    for every [func].  [peek] tests the truthiness of [_data], where every
    other method tests [_error]. *)
Theorem peek_skips_falsy_success {B : Type} (func : callback W value B) w n :
  let run v := peek (counted func) 0 (mkStore [@Success E v] (w, n)) in
  run (num 0) = Return 0 (mkStore [Success (num 0)] (w, n)) /\
  run (str "") = Return 0 (mkStore [Success (str "")] (w, n)) /\
  run (boolean false) = Return 0 (mkStore [Success (boolean false)] (w, n)).
Proof. repeat split. Qed.

(** C10.  The object [Result.of(null)] or [Result.of(undefined)] builds is a
    [Success] to every method that looks at [_error]: [fold] runs the success
    handler on the null-like value and nothing else, [apply] runs the
    transformation on it and wraps what it returns, [applyOnFailure] and
    [onFailureReturn] rebuild [Success] of that value without a call,
    [failOnCondition] evaluates its predicate on it; [peek] alone returns
    without calling its callback. *)
Theorem nullish_success (v : value) (s0 : store E W) :
  v = null \/ v = undefined ->
  exists (this : loc) (s : store E W),
    of_ v s0 = Return this s /\
    heap s !! this = Some (Success v) /\
    (forall (R : Type) (onData : callback W value R) (onError : callback W E R),
       fold onData onError this s = call onData v s) /\
    (forall func : callback W value value,
       apply func this s = bind (call func v) of_ s) /\
    (forall func : callback W E E,
       applyOnFailure func this s = of_ v s) /\
    (forall (condition : callback W value bool) (error : E),
       failOnCondition condition error this s
       = bind (call condition v) (fun c => if c : bool then failure error else of_ v) s) /\
    (forall (newValue : value) (filter : option (callback W E bool)),
       onFailureReturn newValue filter this s = of_ v s) /\
    (forall (B : Type) (func : callback W value B),
       peek func this s = Return this s).
Proof.
  intros Hv. rewrite of_eq. do 2 eexists. split; [reflexivity |].
  assert (H : heap (mkStore (heap s0 ++ [@Success E v]) (world s0)) !! length (heap s0)
              = Some (Success v)) by apply fresh_lookup.
  split; [exact H |].
  repeat split; intros.
  - unfold fold. js_method H. reflexivity.
  - apply apply_no_error. exact H.
  - unfold applyOnFailure. js_method H. reflexivity.
  - unfold failOnCondition. js_method H. reflexivity.
  - unfold onFailureReturn. js_method H. reflexivity.
  - unfold peek. js_method H. destruct Hv as [-> | ->]; reflexivity.
Qed.

End Peeking.

(** ** What the factories make observable *)

Section Factories.

Context {E W : Type}.
Implicit Types (s : store E W) (v : value) (e : E).

(** C4, as the class has it.  There is no [isSuccess()] or [isFailure()];
    the state of a [Result] is read through the accessors [error] and [data],
    which the class does declare.  For every [v], [Result.of(v)] has an
    undefined [error] and [data] equal to [v]; for every [e],
    [Result.failure(e)] has [error] equal to [e]. *)
Theorem factories_observable s :
  declares "error" = true /\ declares "data" = true /\
  (forall v, exists (r : loc) (s' : store E W),
     of_ v s = Return r s' /\
     error r s' = Return None s' /\ data r s' = Return v s') /\
  (forall e, exists (r : loc) (s' : store E W),
     failure e s = Return r s' /\
     error r s' = Return (Some e) s' /\ data r s' = Return undefined s').
Proof.
  split; [reflexivity |]. split; [reflexivity |]. split.
  - intros v. rewrite of_eq. do 2 eexists. split; [reflexivity |].
    unfold error, data.
    split; erewrite bind_deref by apply fresh_lookup; reflexivity.
  - intros e. rewrite failure_eq. do 2 eexists. split; [reflexivity |].
    unfold error, data.
    split; erewrite bind_deref by apply fresh_lookup; reflexivity.
Qed.

End Factories.

(** ** The receiver and the returned object *)

Section Frame.

Context {E W : Type}.
Implicit Types (s : store E W) (this : loc) (v : value) (e : E).

Lemma of_allocates v s (s1 : store E W) :
  heap s1 = heap s -> allocates_one s (of_ v s1).
Proof. intros H. rewrite of_eq. simpl. rewrite H. eauto. Qed.

Lemma failure_allocates e s (s1 : store E W) :
  heap s1 = heap s -> allocates_one s (failure e s1).
Proof. intros H. rewrite failure_eq. simpl. rewrite H. eauto. Qed.

(** A callback leaves the heap alone, however it ends. *)
Lemma call_heap {A B : Type} (f : callback W A B) (x : A) s :
  heap (final (call f x s)) = heap s.
Proof. unfold call. destruct (f x (world s)); reflexivity. Qed.

Lemma allocates_after_call {A B : Type} (f : callback W A B) (x : A)
    (k : B -> Js E W loc) s :
  (forall y s1, heap s1 = heap s -> allocates_one s (k y s1)) ->
  allocates_one s (bind (call f x) k s).
Proof.
  intros Hk. unfold bind. pose proof (call_heap f x s) as Hc.
  destruct (call f x s) as [y s1 | ex s1]; simpl in Hc; [apply Hk | simpl]; exact Hc.
Qed.

Lemma allocates_after_deref this (k : t E -> Js E W loc) s :
  (forall o, allocates_one s (k o s)) ->
  allocates_one s (bind (deref this) k s).
Proof.
  intros Hk. unfold bind, deref.
  destruct (heap s !! this); [apply Hk | reflexivity].
Qed.

Lemma apply_allocates (func : callback W value value) this s :
  allocates_one s (apply func this s).
Proof.
  apply allocates_after_deref. intros [[e |] v]; simpl.
  - apply failure_allocates. reflexivity.
  - apply allocates_after_call. intros y s1. apply of_allocates.
Qed.

Lemma applyOnFailure_allocates (func : callback W E E) this s :
  allocates_one s (applyOnFailure func this s).
Proof.
  apply allocates_after_deref. intros [[e |] v]; simpl.
  - apply allocates_after_call. intros y s1. apply failure_allocates.
  - apply of_allocates. reflexivity.
Qed.

Lemma failOnCondition_allocates (condition : callback W value bool) (error : E)
    this s :
  allocates_one s (failOnCondition condition error this s).
Proof.
  apply allocates_after_deref. intros [[e |] v]; simpl.
  - apply failure_allocates. reflexivity.
  - apply allocates_after_call.
    intros [|] s1; [apply failure_allocates | apply of_allocates].
Qed.

Lemma onFailureReturn_allocates (newValue : value)
    (filter : option (callback W E bool)) this s :
  allocates_one s (onFailureReturn newValue filter this s).
Proof.
  apply allocates_after_deref. intros [[e |] v]; simpl.
  - destruct filter as [f |].
    + apply allocates_after_call.
      intros [|] s1; [apply of_allocates | apply failure_allocates].
    + unfold bind, ret. apply of_allocates. reflexivity.
  - apply of_allocates. reflexivity.
Qed.

Lemma allocates_preserves (m : Js E W loc) :
  (forall s, allocates_one s (m s)) -> preserves m.
Proof.
  intros Hm s l o Hl. specialize (Hm s).
  destruct (m s) as [l' s' | ex s']; simpl in *.
  - destruct Hm as [_ [o' ->]]. apply old_lookup. exact Hl.
  - rewrite Hm. exact Hl.
Qed.

Lemma allocates_fresh (method : loc -> Js E W loc) :
  (forall this s, allocates_one s (method this s)) -> returns_fresh method.
Proof.
  intros Hm this s s' o l Hthis Hret. specialize (Hm this s).
  rewrite Hret in Hm. destruct Hm as [-> [o' Hs']].
  apply lookup_lt_Some in Hthis. split; [lia |]. split.
  - apply lookup_ge_None. lia.
  - rewrite Hs', fresh_lookup. eauto.
Qed.

(** The methods that do not end in a factory leave the whole heap as it
    was. *)
Lemma unchanged_preserves {A : Type} (m : Js E W A) :
  (forall s, heap (final (m s)) = heap s) -> preserves m.
Proof. intros Hm s l o Hl. rewrite Hm. exact Hl. Qed.

Lemma error_heap this s : heap (final (error this s)) = heap s.
Proof. unfold error, bind, deref, ret. destruct (heap s !! this); reflexivity. Qed.

Lemma data_heap this s : heap (final (data this s)) = heap s.
Proof. unfold data, bind, deref, ret. destruct (heap s !! this); reflexivity. Qed.

Lemma fold_heap {R : Type} (onData : callback W value R) (onError : callback W E R)
    this s :
  heap (final (fold onData onError this s)) = heap s.
Proof.
  unfold fold, bind, deref.
  destruct (heap s !! this) as [[[e |] v] |]; simpl; [| | reflexivity];
    apply call_heap.
Qed.

Lemma peek_this {B : Type} (func : callback W value B) this s :
  match peek func this s with
  | Return l s' => l = this /\ heap s' = heap s
  | Throw _ s' => heap s' = heap s
  end.
Proof.
  unfold peek, bind, deref, ret.
  destruct (heap s !! this) as [[oe v] |]; simpl; [| reflexivity].
  destruct (ToBoolean v); [| auto].
  pose proof (call_heap func v s) as Hc.
  destruct (call func v s); simpl in *; auto.
Qed.

Lemma onFailurePeek_this {B : Type} (func : callback W E B) this s :
  match onFailurePeek func this s with
  | Return l s' => l = this /\ heap s' = heap s
  | Throw _ s' => heap s' = heap s
  end.
Proof.
  unfold onFailurePeek, bind, deref, ret.
  destruct (heap s !! this) as [[[e |] v] |]; simpl; [| auto | reflexivity].
  pose proof (call_heap func e s) as Hc.
  destruct (call func e s); simpl in *; auto.
Qed.

(** C8, as the code has it.  No operation changes an object that exists
    before the call, so the receiver keeps its tag and payload, whether the
    operation returns or a callback throws.  [apply], [applyOnFailure],
    [failOnCondition] and [onFailureReturn] return a [Result] constructed by
    the call, at a location that held nothing before; [peek] and
    [onFailurePeek] return the receiver itself and construct nothing. *)
Theorem operations_frame :
  (forall this, preserves (error (E:=E) (W:=W) this) /\ preserves (data (E:=E) (W:=W) this)) /\
  (forall (R : Type) (onData : callback W value R) (onError : callback W E R) this,
     preserves (fold onData onError this)) /\
  (forall func : callback W value value,
     (forall this, preserves (apply (E:=E) func this)) /\ returns_fresh (apply (E:=E) func)) /\
  (forall func : callback W E E,
     (forall this, preserves (applyOnFailure func this))
     /\ returns_fresh (applyOnFailure func)) /\
  (forall (condition : callback W value bool) (error : E),
     (forall this, preserves (failOnCondition condition error this))
     /\ returns_fresh (failOnCondition condition error)) /\
  (forall (newValue : value) (filter : option (callback W E bool)),
     (forall this, preserves (onFailureReturn newValue filter this))
     /\ returns_fresh (onFailureReturn newValue filter)) /\
  (forall (B : Type) (func : callback W value B),
     (forall this, preserves (peek (E:=E) func this)) /\ returns_this (peek (E:=E) func)) /\
  (forall (B : Type) (func : callback W E B),
     (forall this, preserves (onFailurePeek func this))
     /\ returns_this (onFailurePeek func)).
Proof.
  repeat (intros; try apply conj).
  - apply unchanged_preserves. intros s. apply error_heap.
  - apply unchanged_preserves. intros s. apply data_heap.
  - apply unchanged_preserves. intros s. apply fold_heap.
  - apply allocates_preserves. intros s. apply apply_allocates.
  - apply allocates_fresh. intros this s. apply apply_allocates.
  - apply allocates_preserves. intros s. apply applyOnFailure_allocates.
  - apply allocates_fresh. intros this s. apply applyOnFailure_allocates.
  - apply allocates_preserves. intros s. apply failOnCondition_allocates.
  - apply allocates_fresh. intros this s. apply failOnCondition_allocates.
  - apply allocates_preserves. intros s. apply onFailureReturn_allocates.
  - apply allocates_fresh. intros this s. apply onFailureReturn_allocates.
  - apply unchanged_preserves. intros s. pose proof (peek_this func this s) as H.
    destruct (peek func this s); simpl; tauto.
  - intros this s s' l Hret. pose proof (peek_this func this s) as H.
    rewrite Hret in H. exact H.
  - apply unchanged_preserves. intros s.
    pose proof (onFailurePeek_this func this s) as H.
    destruct (onFailurePeek func this s); simpl; tauto.
  - intros this s s' l Hret. pose proof (onFailurePeek_this func this s) as H.
    rewrite Hret in H. exact H.
Qed.

End Frame.

(** ** The test suite of the repository, run on the embedding *)

Module Tests.

Import Fixtures.

Example creates_successful_result :
  (r <- of_ (num 42) ;; d <- data r ;; e <- error r ;; ret (d, e)) (empty_heap tt)
  = Return (num 42, None) (mkStore [Success (num 42)] tt).
Proof. reflexivity. Qed.

Example creates_failure_result :
  (r <- failure test_error ;; e <- error r ;; d <- data r ;; ret (e, d)) (empty_heap tt)
  = Return (Some test_error, undefined) (mkStore [Failure test_error] tt).
Proof. reflexivity. Qed.

Example from_nullable_with_value :
  (r <- fromNullable (str "test") (new_Error "error") ;; data r) (empty_heap tt)
  = Return (str "test") (mkStore [Success (str "test")] tt).
Proof. reflexivity. Qed.

Example from_nullable_with_null :
  (r <- fromNullable null (new_Error "error") ;; error r) (empty_heap tt)
  = Return (Some (new_Error "error")) (mkStore [Failure (new_Error "error")] tt).
Proof. reflexivity. Qed.

Example from_nullable_with_empty_array :
  (r <- fromNullable (array_of []) (new_Error "error") ;; error r) (empty_heap tt)
  = Return (Some (new_Error "error")) (mkStore [Failure (new_Error "error")] tt).
Proof. reflexivity. Qed.

Example applies_transformation_on_success :
  (r <- of_ (num 42) ;; r' <- apply double r ;; data r') (empty_heap tt)
  = Return (num 84) (mkStore [Success (num 42); Success (num 84)] tt).
Proof. reflexivity. Qed.

Example no_transformation_on_failure :
  (r <- failure test_error ;; r' <- apply double r ;; error r') (empty_heap tt)
  = Return (Some test_error) (mkStore [Failure test_error; Failure test_error] tt).
Proof. reflexivity. Qed.

Example fails_on_condition :
  (r <- of_ (num 42) ;; r' <- failOnCondition gt40 (new_Error "too large") r ;;
   e <- error r' ;; ret (message <$> e)) (empty_heap tt)
  = Return (Some "too large")
      (mkStore [Success (num 42); Failure (new_Error "too large")] tt).
Proof. reflexivity. Qed.

Example returns_new_value_on_failure :
  (r <- failure test_error ;; r' <- onFailureReturn (num 42) None r ;; data r')
    (empty_heap tt)
  = Return (num 42) (mkStore [Failure test_error; Success (num 42)] tt).
Proof. reflexivity. Qed.

Example executes_peek_on_success :
  (r <- of_ (num 42) ;; peek assign r) (empty_heap (num 0))
  = Return 0 (mkStore [Success (num 42)] (num 42)).
Proof. reflexivity. Qed.

Example executes_onFailurePeek_on_failure :
  (r <- failure test_error ;; onFailurePeek assign_message r) (empty_heap "")
  = Return 0 (mkStore [Failure test_error] "test error").
Proof. reflexivity. Qed.

Example filters_failure_replacement :
  (r <- failure test_error ;;
   r' <- onFailureReturn (num 42) (Some is_different_error) r ;;
   e <- error r' ;; ret (message <$> e)) (empty_heap tt)
  = Return (Some "test error") (mkStore [Failure test_error; Failure test_error] tt).
Proof. reflexivity. Qed.

End Tests.

(** ** The statements at concrete inputs *)

Import Fixtures.

(** The class has no member named [isSuccess] or [isFailure]. *)
Lemma no_tag_predicates :
  declares "isSuccess" = false /\ declares "isFailure" = false.
Proof. split; reflexivity. Qed.

(** A function is not a primitive and, taken bare, has no own enumerable
    key; [fromNullable] lifts it to a success all the same, so the failures
    are not all the non-primitive values without keys. *)
Lemma function_without_keys_is_lifted :
  is_primitive (closure 0 []) = false /\
  Object_keys (closure 0 []) = inr [] /\
  fromNullable (closure 0 []) test_error (mkStore [] tt)
  = Return 0 (mkStore [Success (closure 0 [])] tt) /\
  ~ (forall data : value,
       is_primitive data = false /\ Object_keys data = inr [] ->
       fromNullable data test_error (mkStore [] tt)
       = Return 0 (mkStore [Failure test_error] tt)).
Proof.
  split; [reflexivity |]. split; [reflexivity |]. split; [reflexivity |].
  intros Hclaim. specialize (Hclaim (closure 0 []) (conj eq_refl eq_refl)).
  discriminate Hclaim.
Qed.

(** [Result.of(42).peek(f)] returns the receiver, location [0], and the heap
    still holds one object: [peek] does not return a fresh [Result]. *)
Lemma peek_returns_receiver :
  peek assign 0 (mkStore [@Success Error (num 42)] (num 0))
  = Return 0 (mkStore [Success (num 42)] (num 42)) /\
  ~ returns_fresh (peek (E:=Error) (@assign value)).
Proof.
  split; [reflexivity |].
  intros Hfresh.
  destruct (Hfresh 0 (mkStore [Success (num 42)] (num 0))
              (mkStore [Success (num 42)] (num 42)) (Success (num 42)) 0)
    as [Hne _]; [reflexivity | reflexivity |].
  apply Hne. reflexivity.
Qed.

(** The accessors on [Result.of(42)] and on [Result.failure(new Error("test error"))]. *)
Lemma accessors_total_witness :
  (data 0 (mkStore [@Success Error (num 42)] tt)
   = Return (num 42) (mkStore [Success (num 42)] tt) /\
   error 0 (mkStore [@Success Error (num 42)] tt)
   = Return None (mkStore [Success (num 42)] tt)) /\
  (error 0 (mkStore [Failure test_error] tt)
   = Return (Some test_error) (mkStore [Failure test_error] tt) /\
   data 0 (mkStore [Failure test_error] tt)
   = Return undefined (mkStore [Failure test_error] tt)).
Proof.
  split.
  - apply (proj1 (accessors_total 0 (mkStore [@Success Error (num 42)] tt)) (num 42)).
    reflexivity.
  - apply (proj2 (accessors_total 0 (mkStore [Failure test_error] tt)) test_error).
    reflexivity.
Defined.

(** [apply(x => x * 2)] on [Result.of(42)]: one call, [Success 84]; on a
    failure: no call, the same error. *)
Lemma apply_calls_once_witness :
  apply (counted double) 0 (mkStore [@Success Error (num 42)] (tt, 0))
  = Return 1 (mkStore [Success (num 42); Success (num 84)] (tt, 1)) /\
  apply (counted double) 0 (mkStore [Failure test_error] (tt, 0))
  = Return 1 (mkStore [Failure test_error; Failure test_error] (tt, 0)).
Proof.
  split.
  - apply (proj1 (apply_calls_once double 0 [@Success Error (num 42)] tt 0)
             (num 42) (num 84) tt); reflexivity.
  - apply (proj2 (apply_calls_once double 0 [Failure test_error] tt 0) test_error).
    reflexivity.
Defined.

(** [failOnCondition(x => x > 40, new Error("too large"))] on a failure, on
    [Result.of(42)] and on [Result.of(10)]. *)
Lemma failOnCondition_spec_witness :
  failOnCondition (counted gt40) (new_Error "too large") 0
    (mkStore [Failure test_error] (tt, 0))
  = Return 1 (mkStore [Failure test_error; Failure test_error] (tt, 0)) /\
  failOnCondition (counted gt40) (new_Error "too large") 0
    (mkStore [Success (num 42)] (tt, 0))
  = Return 1 (mkStore [Success (num 42); Failure (new_Error "too large")] (tt, 1)) /\
  failOnCondition (counted gt40) (new_Error "too large") 0
    (mkStore [Success (num 10)] (tt, 0))
  = Return 1 (mkStore [Success (num 10); Success (num 10)] (tt, 1)).
Proof.
  split; [| split].
  - apply (proj1 (failOnCondition_spec gt40 (new_Error "too large") 0
                    [Failure test_error] tt 0) test_error).
    reflexivity.
  - apply (proj2 (failOnCondition_spec gt40 (new_Error "too large") 0
                    [Success (num 42)] tt 0) (num 42) true tt); reflexivity.
  - apply (proj2 (failOnCondition_spec gt40 (new_Error "too large") 0
                    [Success (num 10)] tt 0) (num 10) false tt); reflexivity.
Defined.

(** [onFailureReturn(42)] and [onFailureReturn(42, filter)] on
    [Result.of(7)] and on failures the filter rejects and accepts. *)
Lemma onFailureReturn_spec_witness :
  onFailureReturn (num 42) (Some is_different_error) 0
    (mkStore [@Success Error (num 7)] tt)
  = Return 1 (mkStore [Success (num 7); Success (num 7)] tt) /\
  onFailureReturn (num 42) None 0 (mkStore [Failure test_error] tt)
  = Return 1 (mkStore [Failure test_error; Success (num 42)] tt) /\
  onFailureReturn (num 42) (Some is_different_error) 0
    (mkStore [Failure test_error] tt)
  = Return 1 (mkStore [Failure test_error; Failure test_error] tt) /\
  onFailureReturn (num 42) (Some is_different_error) 0
    (mkStore [Failure (new_Error "different error")] tt)
  = Return 1 (mkStore [Failure (new_Error "different error"); Success (num 42)] tt).
Proof.
  split; [| split; [| split]].
  - apply (proj1 (onFailureReturn_spec (num 42) 0
                    (mkStore [@Success Error (num 7)] tt)) (num 7)).
    reflexivity.
  - apply (proj1 (proj2 (onFailureReturn_spec (num 42) 0
                           (mkStore [Failure test_error] tt))) test_error).
    reflexivity.
  - apply (proj2 (proj2 (onFailureReturn_spec (num 42) 0
                           (mkStore [Failure test_error] tt)))
             test_error is_different_error false tt); reflexivity.
  - apply (proj2 (proj2 (onFailureReturn_spec (num 42) 0
                           (mkStore [Failure (new_Error "different error")] tt)))
             (new_Error "different error") is_different_error true tt); reflexivity.
Defined.

(** [fromNullable] on the empty array, the empty object, [null], ["test"]
    and a function. *)
Lemma fromNullable_spec_witness :
  fromNullable (array_of []) test_error (mkStore [] tt)
  = Return 0 (mkStore [Failure test_error] tt) /\
  fromNullable (object []) test_error (mkStore [] tt)
  = Return 0 (mkStore [Failure test_error] tt) /\
  fromNullable null test_error (mkStore [] tt)
  = Return 0 (mkStore [Failure test_error] tt) /\
  fromNullable (str "test") test_error (mkStore [] tt)
  = Return 0 (mkStore [Success (str "test")] tt) /\
  fromNullable (closure 0 []) test_error (mkStore [] tt)
  = Return 0 (mkStore [Success (closure 0 [])] tt).
Proof.
  split; [| split; [| split; [| split]]].
  - apply (proj1 (proj1 (fromNullable_spec (array_of []) test_error (mkStore [] tt)))).
    right. left. exists []. reflexivity.
  - apply (proj1 (proj1 (fromNullable_spec (object []) test_error (mkStore [] tt)))).
    right. right. split; reflexivity.
  - apply (proj1 (proj1 (fromNullable_spec null test_error (mkStore [] tt)))).
    left. left. reflexivity.
  - apply (proj1 (proj1 (proj2 (fromNullable_spec (str "test") test_error
                                   (mkStore [] tt))))).
    simpl. intros [[H | H] | [[props H] | [H _]]]; discriminate H.
  - apply (proj2 (proj2 (fromNullable_spec (closure 0 []) test_error
                           (mkStore [] tt))) 0 []).
    reflexivity.
Defined.

(** On [Result.of(null)], [fold] calls its success handler once with
    [null], and [peek] makes no call. *)
Lemma nullish_success_witness :
  exists (this : loc) (s : store Error (value * nat)),
    of_ null (mkStore [] (undefined, 0)) = Return this s /\
    fold (counted assign) (counted (fun _ w => Return tt w)) this s
    = Return tt (mkStore [Success null] (null, 1)) /\
    peek (counted assign) this s = Return this (mkStore [Success null] (undefined, 0)).
Proof.
  destruct (nullish_success (E:=Error) null (mkStore [] (undefined, 0)))
    as (this & s & Hof & Hobj & Hfold & _ & _ & _ & _ & Hpeek).
  { left. reflexivity. }
  exists this, s. split; [exact Hof |].
  rewrite Hfold, Hpeek.
  rewrite of_eq in Hof. injection Hof as <- <-.
  split; reflexivity.
Defined.

(** [Result.of(42).apply(x => x * 2)] leaves the receiver at location [0]
    as it was and returns the new object at location [1]. *)
Lemma operations_frame_witness :
  heap (final (apply double 0 (mkStore [@Success Error (num 42)] tt))) !! 0
  = Some (Success (num 42)) /\
  (1 <> 0 /\
   heap (mkStore [@Success Error (num 42)] tt) !! 1 = None /\
   is_Some (heap (mkStore [@Success Error (num 42); Success (num 84)] tt) !! 1)).
Proof.
  pose proof (@operations_frame Error unit) as (_ & _ & Happly & _).
  destruct (Happly double) as [Hkeep Hfresh]. split.
  - apply Hkeep. reflexivity.
  - apply (Hfresh 0 (mkStore [Success (num 42)] tt)
             (mkStore [Success (num 42); Success (num 84)] tt) (Success (num 42)) 1);
      reflexivity.
Defined.

(** * Further properties of the code *)

Import Laws.

(** ** What the other methods do, by the [_error] field of the receiver *)

Section Dispatch.

Context {E W : Type}.
Implicit Types (s : store E W) (this : loc) (v : value) (e : E).

Lemma applyOnFailure_error (f : callback W E E) this s e v :
  heap s !! this = Some (mk (Some e) v) ->
  applyOnFailure f this s = bind (call f e) failure s.
Proof.
  intros H. unfold applyOnFailure. erewrite bind_deref by exact H. reflexivity.
Qed.

Lemma applyOnFailure_no_error (f : callback W E E) this s v :
  heap s !! this = Some (mk None v) ->
  applyOnFailure f this s = of_ v s.
Proof.
  intros H. unfold applyOnFailure. erewrite bind_deref by exact H. reflexivity.
Qed.

Lemma fold_no_error {R : Type} (g : callback W value R) (k : callback W E R)
    this s v :
  heap s !! this = Some (mk None v) -> fold g k this s = call g v s.
Proof. intros H. unfold fold. erewrite bind_deref by exact H. reflexivity. Qed.

Lemma fold_error {R : Type} (g : callback W value R) (k : callback W E R)
    this s e v :
  heap s !! this = Some (mk (Some e) v) -> fold g k this s = call k e s.
Proof. intros H. unfold fold. erewrite bind_deref by exact H. reflexivity. Qed.

Lemma method_dangling {A : Type} (k : t E -> Js E W A) this s :
  heap s !! this = None ->
  bind (deref this) k s = Throw (TypeError "Cannot read properties of undefined") s.
Proof. intros H. unfold bind. rewrite (deref_dangling _ _ H). reflexivity. Qed.

End Dispatch.

(** ** Laws of the transformations *)

Section TransformationLaws.

Context {E W : Type}.
Implicit Types (h : list (t E)) (s : store E W) (this : loc) (v : value) (e : E)
  (w : W) (n : nat).

(** [applyOnFailure] on [Failure e], with a [func] that returns [e'] on [e],
    yields a new [Failure e'] and has called [func] exactly once; on
    [Success v] it yields a new [Success v] and has not called [func]. *)
Theorem applyOnFailure_calls_once (func : callback W E E) this h w n :
  (forall e e' w',
     h !! this = Some (Failure e) ->
     func e w = Return e' w' ->
     applyOnFailure (counted func) this (mkStore h (w, n))
     = Return (length h) (mkStore (h ++ [Failure e']) (w', S n))) /\
  (forall v,
     h !! this = Some (Success v) ->
     applyOnFailure (counted func) this (mkStore h (w, n))
     = Return (length h) (mkStore (h ++ [Success v]) (w, n))).
Proof.
  split.
  - intros e e' w' H Hf. erewrite applyOnFailure_error by exact H.
    unfold bind, call, counted. simpl. rewrite Hf, failure_eq. reflexivity.
  - intros v H. erewrite applyOnFailure_no_error by exact H.
    rewrite of_eq. reflexivity.
Qed.

(** [fold] runs exactly one handler, once: on [Success v] the log of calls
    gains ["onData"] alone and the answer is that of [onData v]; on
    [Failure e] it gains ["onError"] alone and the answer is that of
    [onError e].  No [Result] is constructed. *)
Theorem fold_runs_one_handler {R : Type} (onData : callback W value R)
    (onError : callback W E R) this h w (calls : list string) :
  (forall v r w',
     h !! this = Some (Success v) ->
     onData v w = Return r w' ->
     fold (tagged "onData" onData) (tagged "onError" onError) this
       (mkStore h (w, calls))
     = Return r (mkStore h (w', calls ++ ["onData"]))) /\
  (forall e r w',
     h !! this = Some (Failure e) ->
     onError e w = Return r w' ->
     fold (tagged "onData" onData) (tagged "onError" onError) this
       (mkStore h (w, calls))
     = Return r (mkStore h (w', calls ++ ["onError"]))).
Proof.
  split.
  - intros v r w' H Hf. erewrite fold_no_error by exact H.
    unfold call, tagged. simpl. rewrite Hf. reflexivity.
  - intros e r w' H Hf. erewrite fold_error by exact H.
    unfold call, tagged. simpl. rewrite Hf. reflexivity.
Qed.

(** Folding after a transformation is folding with the transformation put
    before the success handler: [r.apply(f).fold(g, k)] and
    [r.fold(x => g(f(x)), k)] give the same answer, or throw the same
    exception, and leave the same world, for every receiver. *)
Theorem fold_after_apply {R : Type} (f : callback W value value)
    (g : callback W value R) (k : callback W E R) this s :
  same_value (bind (apply f this) (fold g k) s) (fold (compose f g) k this s).
Proof.
  destruct (heap s !! this) as [[[e |] v] |] eqn:H.
  - unfold bind. rewrite (apply_error _ _ _ _ _ H), failure_eq.
    erewrite fold_error by apply fresh_lookup.
    rewrite (fold_error _ _ _ _ _ _ H).
    unfold call. cbn [heap world].
    destruct (k e (world s)); simpl; auto.
  - unfold bind at 1. rewrite (apply_no_error _ _ _ _ H).
    rewrite (fold_no_error _ _ _ _ _ H).
    unfold bind, call, compose.
    destruct (f v (world s)) as [y w' | ex w']; [| simpl; auto].
    rewrite of_eq. erewrite fold_no_error by apply fresh_lookup.
    unfold call. cbn [heap world].
    destruct (g y w'); simpl; auto.
  - unfold bind at 1. unfold apply, fold.
    rewrite !(method_dangling _ _ _ H). simpl. auto.
Qed.

(** The identity law, which needs a well-formed receiver: [r.apply(x => x)]
    returns a new [Result] with the fields of [r]. *)
Theorem apply_identity this s (o : t E) :
  heap s !! this = Some o ->
  well_formed o ->
  apply (pure (fun x => x)) this s
  = Return (length (heap s)) (mkStore (heap s ++ [o]) (world s)).
Proof.
  intros H Hwf. destruct o as [[e |] v].
  - destruct Hwf as [Hwf | Hwf]; [discriminate Hwf |]. simpl in Hwf. subst v.
    rewrite (apply_error _ _ _ _ _ H), failure_eq. reflexivity.
  - rewrite (apply_no_error _ _ _ _ H).
    unfold bind, call, pure. rewrite of_eq. reflexivity.
Qed.

(** Transformations of the error compose:
    [r.applyOnFailure(f).applyOnFailure(g)] and
    [r.applyOnFailure(e => g(f(e)))] end alike, for every receiver. *)
Theorem applyOnFailure_compose (f g : callback W E E) this s :
  same_result (bind (applyOnFailure f this) (applyOnFailure g) s)
              (applyOnFailure (compose f g) this s).
Proof.
  destruct (heap s !! this) as [[[e |] v] |] eqn:H.
  - rewrite (applyOnFailure_error (compose f g) _ _ _ _ H).
    unfold bind at 1. rewrite (applyOnFailure_error f _ _ _ _ H).
    unfold bind, call, compose.
    destruct (f e (world s)) as [e1 w' | ex w']; [| simpl; auto].
    rewrite failure_eq. cbn [heap world].
    erewrite applyOnFailure_error by apply fresh_lookup.
    unfold bind, call. cbn [heap world].
    destruct (g e1 w') as [e2 w'' | ex w'']; [| simpl; auto].
    rewrite !failure_eq. cbn [same_result heap world].
    rewrite !fresh_lookup. auto.
  - unfold bind. rewrite !(applyOnFailure_no_error _ _ _ _ H), of_eq.
    erewrite applyOnFailure_no_error by apply fresh_lookup.
    rewrite of_eq. cbn [same_result heap world].
    rewrite !fresh_lookup. auto.
  - unfold bind at 1. unfold applyOnFailure.
    rewrite !(method_dangling _ _ _ H). simpl. auto.
Qed.

(** The two transformations commute: [r.apply(f).applyOnFailure(g)] and
    [r.applyOnFailure(g).apply(f)] end alike, for every receiver; only one
    of [f] and [g] runs. *)
Theorem apply_applyOnFailure_commute (f : callback W value value)
    (g : callback W E E) this s :
  same_result (bind (apply f this) (applyOnFailure g) s)
              (bind (applyOnFailure g this) (apply f) s).
Proof.
  destruct (heap s !! this) as [[[e |] v] |] eqn:H.
  - unfold bind.
    rewrite (apply_error _ _ _ _ _ H), failure_eq.
    erewrite applyOnFailure_error by apply fresh_lookup.
    rewrite (applyOnFailure_error _ _ _ _ _ H).
    unfold bind, call. cbn [heap world].
    destruct (g e (world s)) as [e1 w' | ex w']; [| simpl; auto].
    rewrite !failure_eq. cbn [heap world].
    erewrite apply_error by apply fresh_lookup.
    rewrite failure_eq. cbn [same_result heap world].
    rewrite !fresh_lookup. auto.
  - unfold bind.
    rewrite (apply_no_error _ _ _ _ H).
    rewrite (applyOnFailure_no_error _ _ _ _ H), of_eq.
    erewrite apply_no_error by apply fresh_lookup.
    unfold bind, call. cbn [heap world].
    destruct (f v (world s)) as [y w' | ex w']; [| simpl; auto].
    rewrite !of_eq. cbn [heap world].
    erewrite applyOnFailure_no_error by apply fresh_lookup.
    rewrite of_eq. cbn [same_result heap world].
    rewrite !fresh_lookup. auto.
  - unfold bind at 1 2. unfold apply, applyOnFailure.
    rewrite !(method_dangling _ _ _ H). simpl. auto.
Qed.

End TransformationLaws.

(** ** Recovery, conditions and inspection *)

Section DispatchMore.

Context {E W : Type}.
Implicit Types (s : store E W) (this : loc) (v : value) (e : E).

Lemma failOnCondition_error (c : callback W value bool) (err : E) this s e v :
  heap s !! this = Some (mk (Some e) v) ->
  failOnCondition c err this s = failure e s.
Proof.
  intros H. unfold failOnCondition. erewrite bind_deref by exact H. reflexivity.
Qed.

Lemma failOnCondition_no_error (c : callback W value bool) (err : E) this s v :
  heap s !! this = Some (mk None v) ->
  failOnCondition c err this s
  = bind (call c v) (fun b => if b : bool then failure err else of_ v) s.
Proof.
  intros H. unfold failOnCondition. erewrite bind_deref by exact H. reflexivity.
Qed.

Lemma onFailureReturn_no_error (d : value) (filter : option (callback W E bool))
    this s v :
  heap s !! this = Some (mk None v) ->
  onFailureReturn d filter this s = of_ v s.
Proof.
  intros H. unfold onFailureReturn. erewrite bind_deref by exact H. reflexivity.
Qed.

Lemma onFailureReturn_unfiltered (d : value) this s e v :
  heap s !! this = Some (mk (Some e) v) ->
  onFailureReturn d None this s = of_ d s.
Proof.
  intros H. unfold onFailureReturn. erewrite bind_deref by exact H. reflexivity.
Qed.

Lemma onFailureReturn_filtered (d : value) (f : callback W E bool) this s e v :
  heap s !! this = Some (mk (Some e) v) ->
  onFailureReturn d (Some f) this s
  = bind (call f e) (fun b => if b : bool then of_ d else failure e) s.
Proof.
  intros H. unfold onFailureReturn. erewrite bind_deref by exact H. reflexivity.
Qed.

Lemma peek_eq {B : Type} (f : callback W value B) this s (o : t E) :
  heap s !! this = Some o ->
  peek f this s
  = if ToBoolean (_data o)
    then bind (call f (_data o)) (fun _ => ret this) s
    else Return this s.
Proof.
  intros H. unfold peek. erewrite bind_deref by exact H.
  destruct (ToBoolean (_data o)); [| reflexivity].
  unfold bind, ret. destruct (call f (_data o) s); reflexivity.
Qed.

Lemma onFailurePeek_eq {B : Type} (f : callback W E B) this s (o : t E) :
  heap s !! this = Some o ->
  onFailurePeek f this s
  = match _error o with
    | Some e => bind (call f e) (fun _ => ret this) s
    | None => Return this s
    end.
Proof.
  intros H. unfold onFailurePeek. erewrite bind_deref by exact H.
  destruct (_error o) as [e |]; [| reflexivity].
  unfold bind, ret. destruct (call f e s); reflexivity.
Qed.

End DispatchMore.

Section RecoveryLaws.

Context {E W : Type}.
Implicit Types (h : list (t E)) (s : store E W) (this : loc) (v : value) (e : E)
  (w : W).

(** Recovering with a default and then folding is folding with an error
    handler that answers for the default: [r.onFailureReturn(d).fold(g, k)]
    and [r.fold(g, _ => g(d))] give the same answer and world; [k] never
    runs. *)
Theorem fold_after_onFailureReturn {R : Type} (d : value)
    (g : callback W value R) (k : callback W E R) this s :
  same_value (bind (onFailureReturn d None this) (fold g k) s)
             (fold g (fun _ => g d) this s).
Proof.
  destruct (heap s !! this) as [[[e |] v] |] eqn:H.
  - unfold bind. rewrite (onFailureReturn_unfiltered _ _ _ _ _ H), of_eq.
    erewrite fold_no_error by apply fresh_lookup.
    rewrite (fold_error _ _ _ _ _ _ H).
    unfold call. cbn [heap world]. destruct (g d (world s)); simpl; auto.
  - unfold bind. rewrite (onFailureReturn_no_error _ _ _ _ _ H), of_eq.
    erewrite fold_no_error by apply fresh_lookup.
    rewrite (fold_no_error _ _ _ _ _ H).
    unfold call. cbn [heap world]. destruct (g v (world s)); simpl; auto.
  - unfold bind at 1. unfold onFailureReturn, fold.
    rewrite !(method_dangling _ _ _ H). simpl. auto.
Qed.

(** With a predicate that has no effect, [failOnCondition] is idempotent:
    applying it twice ends as applying it once. *)
Theorem failOnCondition_idempotent (p : value -> bool) (err : E) this s :
  same_result
    (bind (failOnCondition (pure p) err this) (failOnCondition (pure p) err) s)
    (failOnCondition (pure p) err this s).
Proof.
  destruct (heap s !! this) as [[[e |] v] |] eqn:H.
  - unfold bind. rewrite !(failOnCondition_error _ _ _ _ _ _ H), failure_eq.
    erewrite failOnCondition_error by apply fresh_lookup.
    rewrite failure_eq. cbn [same_result heap world].
    rewrite !fresh_lookup. auto.
  - unfold bind at 1. rewrite !(failOnCondition_no_error _ _ _ _ _ H).
    unfold bind, call, pure. cbn [heap world].
    destruct (p v) eqn:Hp.
    + rewrite failure_eq. erewrite failOnCondition_error by apply fresh_lookup.
      rewrite failure_eq. cbn [same_result heap world].
      rewrite !fresh_lookup. auto.
    + rewrite of_eq. erewrite failOnCondition_no_error by apply fresh_lookup.
      unfold bind, call, pure. cbn [heap world]. rewrite Hp.
      rewrite of_eq. cbn [same_result heap world].
      rewrite !fresh_lookup. auto.
  - unfold bind at 1. unfold failOnCondition.
    rewrite !(method_dangling _ _ _ H). simpl. auto.
Qed.

(** The two peeks are not exhaustive.  On a well-formed receiver the chain
    [r.peek(f).onFailurePeek(g)] returns [r] and runs [g] alone on a
    failure, [f] alone on a success with a truthy value, and neither on a
    success with a falsy value. *)
Theorem peek_then_onFailurePeek {B C : Type} (f : value -> B) (g : E -> C)
    this h w (calls : list string) (o : t E) :
  h !! this = Some o ->
  well_formed o ->
  bind (peek (tagged "peek" (pure f)) this)
       (onFailurePeek (tagged "onFailurePeek" (pure g)))
       (mkStore h (w, calls))
  = Return this
      (mkStore h (w, calls ++ match _error o with
                              | Some _ => ["onFailurePeek"]
                              | None => if ToBoolean (_data o) then ["peek"] else []
                              end)).
Proof.
  intros H Hwf. unfold bind at 1.
  erewrite peek_eq by exact H.
  destruct o as [[e |] v]; cbn [_error _data].
  - destruct Hwf as [Hwf | Hwf]; [discriminate Hwf |]. simpl in Hwf. subst v.
    cbn [ToBoolean]. erewrite onFailurePeek_eq by exact H. reflexivity.
  - destruct (ToBoolean v).
    + unfold bind, call, tagged, pure, ret. cbn [heap world fst snd].
      erewrite onFailurePeek_eq by exact H. reflexivity.
    + erewrite onFailurePeek_eq by exact H. cbn [_error].
      rewrite app_nil_r. reflexivity.
Qed.

(** No method catches: when the callback it runs throws [ex], the method
    throws [ex] to its caller, the world is the one the callback left, and
    no [Result] has been constructed. *)
Theorem callback_exceptions_propagate this h w (ex : exn) w' :
  (forall (func : callback W value value) v,
     h !! this = Some (Success v) -> func v w = Throw ex w' ->
     apply func this (mkStore h w) = Throw ex (mkStore h w')) /\
  (forall (func : callback W E E) e,
     h !! this = Some (Failure e) -> func e w = Throw ex w' ->
     applyOnFailure func this (mkStore h w) = Throw ex (mkStore h w')) /\
  (forall (R : Type) (onData : callback W value R) (onError : callback W E R) v,
     h !! this = Some (Success v) -> onData v w = Throw ex w' ->
     fold onData onError this (mkStore h w) = Throw ex (mkStore h w')) /\
  (forall (R : Type) (onData : callback W value R) (onError : callback W E R) e,
     h !! this = Some (Failure e) -> onError e w = Throw ex w' ->
     fold onData onError this (mkStore h w) = Throw ex (mkStore h w')) /\
  (forall (condition : callback W value bool) (error : E) v,
     h !! this = Some (Success v) -> condition v w = Throw ex w' ->
     failOnCondition condition error this (mkStore h w) = Throw ex (mkStore h w')) /\
  (forall (newValue : value) (filter : callback W E bool) e,
     h !! this = Some (Failure e) -> filter e w = Throw ex w' ->
     onFailureReturn newValue (Some filter) this (mkStore h w)
     = Throw ex (mkStore h w')) /\
  (forall (B : Type) (func : callback W value B) v,
     h !! this = Some (Success v) -> ToBoolean v = true -> func v w = Throw ex w' ->
     peek func this (mkStore h w) = Throw ex (mkStore h w')) /\
  (forall (B : Type) (func : callback W E B) e,
     h !! this = Some (Failure e) -> func e w = Throw ex w' ->
     onFailurePeek func this (mkStore h w) = Throw ex (mkStore h w')).
Proof.
  repeat apply conj; intros.
  - erewrite apply_no_error by eassumption.
    unfold bind, call. cbn [heap world]. rewrite H0. reflexivity.
  - erewrite applyOnFailure_error by eassumption.
    unfold bind, call. cbn [heap world]. rewrite H0. reflexivity.
  - erewrite fold_no_error by eassumption.
    unfold call. cbn [heap world]. rewrite H0. reflexivity.
  - erewrite fold_error by eassumption.
    unfold call. cbn [heap world]. rewrite H0. reflexivity.
  - erewrite failOnCondition_no_error by eassumption.
    unfold bind, call. cbn [heap world]. rewrite H0. reflexivity.
  - erewrite onFailureReturn_filtered by eassumption.
    unfold bind, call. cbn [heap world]. rewrite H0. reflexivity.
  - erewrite peek_eq by eassumption. cbn [_data Success]. rewrite H0.
    unfold bind, call. cbn [heap world]. rewrite H1. reflexivity.
  - erewrite onFailurePeek_eq by eassumption. cbn [_error Failure].
    unfold bind, call. cbn [heap world]. rewrite H0. reflexivity.
Qed.

End RecoveryLaws.

(** ** The invariant of the heap *)

Section Invariant.

Context {E W : Type}.
Implicit Types (s : store E W) (this : loc) (v : value) (e : E).

Lemma of_factory v s (s1 : store E W) :
  heap s1 = heap s -> appends_factory_object s (of_ v s1).
Proof.
  intros H. rewrite of_eq. simpl. rewrite H.
  exists (Success v). split; [left |]; reflexivity.
Qed.

Lemma failure_factory e s (s1 : store E W) :
  heap s1 = heap s -> appends_factory_object s (failure e s1).
Proof.
  intros H. rewrite failure_eq. simpl. rewrite H.
  exists (Failure e). split; [right |]; reflexivity.
Qed.

Lemma factory_after_call {A B : Type} (f : callback W A B) (x : A)
    (k : B -> Js E W loc) s :
  (forall y s1, heap s1 = heap s -> appends_factory_object s (k y s1)) ->
  appends_factory_object s (bind (call f x) k s).
Proof.
  intros Hk. unfold bind. pose proof (call_heap f x s) as Hc.
  destruct (call f x s) as [y s1 | ex s1]; simpl in Hc; [apply Hk | simpl]; exact Hc.
Qed.

Lemma factory_after_deref this (k : t E -> Js E W loc) s :
  (forall o, appends_factory_object s (k o s)) ->
  appends_factory_object s (bind (deref this) k s).
Proof.
  intros Hk. unfold bind, deref.
  destruct (heap s !! this); [apply Hk | reflexivity].
Qed.

Lemma fromNullable_factory (data : value) (error : E) s :
  appends_factory_object s (fromNullable data error s).
Proof.
  unfold fromNullable.
  destruct (is_null data || is_undefined data); [apply failure_factory; reflexivity |].
  destruct (Array_isArray data && _); [apply failure_factory; reflexivity |].
  unfold bind. destruct (String.eqb (typeof data) "object").
  - unfold builtin, ret. destruct (Object_keys data) as [ex | keys]; [reflexivity |].
    destruct (length keys =? 0)%nat;
      [apply failure_factory | apply of_factory]; reflexivity.
  - unfold ret. apply of_factory. reflexivity.
Qed.

Lemma factory_keeps (m : Js E W loc) :
  (forall s, appends_factory_object s (m s)) -> keeps_well_formed m.
Proof.
  intros Hm s Hwf. specialize (Hm s).
  destruct (m s) as [l s' | ex s']; simpl in *.
  - destruct Hm as (o & Ho & ->). apply Forall_app. split; [exact Hwf |].
    constructor; [exact Ho | constructor].
  - rewrite Hm. exact Hwf.
Qed.

Lemma unchanged_keeps {A : Type} (m : Js E W A) :
  (forall s, heap (final (m s)) = heap s) -> keeps_well_formed m.
Proof. intros Hm s Hwf. rewrite Hm. exact Hwf. Qed.

(** Starting from a heap in which no [Result] holds both an error and a
    value, no factory, accessor or method, with whatever callbacks and
    however it ends, leaves a heap with such an object. *)
Theorem heap_stays_well_formed :
  (forall v, keeps_well_formed (of_ (E:=E) (W:=W) v)) /\
  (forall e, keeps_well_formed (failure (W:=W) e)) /\
  (forall data (error : E), keeps_well_formed (fromNullable (W:=W) data error)) /\
  (forall this, keeps_well_formed (error (E:=E) (W:=W) this)) /\
  (forall this, keeps_well_formed (data (E:=E) (W:=W) this)) /\
  (forall (func : callback W value value) this,
     keeps_well_formed (apply (E:=E) func this)) /\
  (forall (func : callback W E E) this,
     keeps_well_formed (applyOnFailure func this)) /\
  (forall (R : Type) (onData : callback W value R) (onError : callback W E R) this,
     keeps_well_formed (fold onData onError this)) /\
  (forall (condition : callback W value bool) (error : E) this,
     keeps_well_formed (failOnCondition condition error this)) /\
  (forall (newValue : value) (filter : option (callback W E bool)) this,
     keeps_well_formed (onFailureReturn newValue filter this)) /\
  (forall (B : Type) (func : callback W value B) this,
     keeps_well_formed (peek (E:=E) func this)) /\
  (forall (B : Type) (func : callback W E B) this,
     keeps_well_formed (onFailurePeek func this)).
Proof.
  repeat apply conj; intros.
  - apply factory_keeps. intros s. apply of_factory. reflexivity.
  - apply factory_keeps. intros s. apply failure_factory. reflexivity.
  - apply factory_keeps. intros s. apply fromNullable_factory.
  - apply unchanged_keeps. intros s. apply error_heap.
  - apply unchanged_keeps. intros s. apply data_heap.
  - apply factory_keeps. intros s. apply factory_after_deref.
    intros [[e |] v]; simpl.
    + apply failure_factory. reflexivity.
    + apply factory_after_call. intros y s1. apply of_factory.
  - apply factory_keeps. intros s. apply factory_after_deref.
    intros [[e |] v]; simpl.
    + apply factory_after_call. intros y s1. apply failure_factory.
    + apply of_factory. reflexivity.
  - apply unchanged_keeps. intros s. apply fold_heap.
  - apply factory_keeps. intros s. apply factory_after_deref.
    intros [[e |] v]; simpl.
    + apply failure_factory. reflexivity.
    + apply factory_after_call.
      intros [|] s1; [apply failure_factory | apply of_factory].
  - apply factory_keeps. intros s. apply factory_after_deref.
    intros [[e |] v]; simpl.
    + destruct filter as [f |].
      * apply factory_after_call.
        intros [|] s1; [apply of_factory | apply failure_factory].
      * unfold bind, ret. apply of_factory. reflexivity.
    + apply of_factory. reflexivity.
  - apply unchanged_keeps. intros s. pose proof (peek_this func this s) as H.
    destruct (peek func this s); simpl; tauto.
  - apply unchanged_keeps. intros s.
    pose proof (onFailurePeek_this func this s) as H.
    destruct (onFailurePeek func this s); simpl; tauto.
Qed.

End Invariant.

(** ** What [fromNullable] takes for empty *)

Section Emptiness.

Context {E W : Type}.
Implicit Types (s : store E W) (error : E).

Lemma enumerable_keys_nil (props : list (string * bool * value)) :
  enumerable_keys props = [] <-> Forall (fun p => snd (fst p) = false) props.
Proof.
  unfold enumerable_keys. induction props as [| [[key enumerable] x] props IH]; simpl.
  - split; [constructor | reflexivity].
  - destruct enumerable; simpl.
    + split; [discriminate |]. intros H.
      apply Forall_cons in H as [Hp _]. discriminate Hp.
    + rewrite IH, Forall_cons. simpl. tauto.
Qed.

Lemma fromNullable_array_eq (len : nat) (props : list (string * bool * value))
    error s :
  fromNullable (array len props) error s
  = if (len =? 0)%nat then failure error s
    else if (length (enumerable_keys props) =? 0)%nat then failure error s
    else of_ (array len props) s.
Proof.
  unfold fromNullable.
  cbn [is_null is_undefined orb Array_isArray andb array_length].
  destruct (len =? 0)%nat; [reflexivity |].
  change (String.eqb (typeof (array len props)) "object") with true.
  unfold bind, builtin, ret. cbn [Object_keys].
  destruct (length (enumerable_keys props) =? 0)%nat; reflexivity.
Qed.

Lemma fromNullable_object_eq (props : list (string * bool * value)) error s :
  fromNullable (object props) error s
  = if (length (enumerable_keys props) =? 0)%nat then failure error s
    else of_ (object props) s.
Proof.
  unfold fromNullable.
  cbn [is_null is_undefined orb Array_isArray andb].
  change (String.eqb (typeof (object props)) "object") with true.
  unfold bind, builtin, ret. cbn [Object_keys].
  destruct (length (enumerable_keys props) =? 0)%nat; reflexivity.
Qed.

(** An array is lifted to a failure exactly when its length is zero or
    none of its own properties, elements and others alike, is enumerable:
    [[]] and [new Array(3)] fail, and so does an empty array that was given a
    named property; [[undefined]] succeeds, and so does [new Array(2)] once
    it has an enumerable named property. *)
Theorem fromNullable_array (len : nat) (props : list (string * bool * value))
    error s :
  (len = 0 \/ Forall (fun p => snd (fst p) = false) props ->
   fromNullable (array len props) error s
   = Return (length (heap s)) (mkStore (heap s ++ [Failure error]) (world s))) /\
  (len <> 0 /\ Exists (fun p => snd (fst p) = true) props ->
   fromNullable (array len props) error s
   = Return (length (heap s))
       (mkStore (heap s ++ [Success (array len props)]) (world s))).
Proof.
  rewrite fromNullable_array_eq. split.
  - intros [-> | Hall]; [apply failure_eq |].
    apply enumerable_keys_nil in Hall. rewrite Hall. simpl.
    destruct (len =? 0)%nat; apply failure_eq.
  - intros [Hlen Hex].
    destruct (len =? 0)%nat eqn:Hzero.
    { apply Nat.eqb_eq in Hzero. contradiction. }
    destruct (length _ =? 0)%nat eqn:Hkeys; [| apply of_eq].
    exfalso. apply length_eqb_nil, enumerable_keys_nil in Hkeys.
    apply Exists_exists in Hex. destruct Hex as (p & Hin & Hp).
    rewrite Forall_forall in Hkeys. rewrite (Hkeys p Hin) in Hp. discriminate Hp.
Qed.

(** An object is lifted to a failure exactly when none of its own
    properties is enumerable, which includes objects that keep their state
    elsewhere, like a [Date] or a [Map]. *)
Theorem fromNullable_object (props : list (string * bool * value)) error s :
  (Forall (fun p => snd (fst p) = false) props ->
   fromNullable (object props) error s
   = Return (length (heap s)) (mkStore (heap s ++ [Failure error]) (world s))) /\
  (Exists (fun p => snd (fst p) = true) props ->
   fromNullable (object props) error s
   = Return (length (heap s)) (mkStore (heap s ++ [Success (object props)]) (world s))).
Proof.
  rewrite fromNullable_object_eq. split.
  - intros Hall. apply enumerable_keys_nil in Hall. rewrite Hall. apply failure_eq.
  - intros Hex. destruct (length _ =? 0)%nat eqn:Hlen; [| apply of_eq].
    exfalso. apply length_eqb_nil, enumerable_keys_nil in Hlen.
    apply Exists_exists in Hex. destruct Hex as (p & Hin & Hp).
    rewrite Forall_forall in Hlen. rewrite (Hlen p Hin) in Hp. discriminate Hp.
Qed.

(** Falsy is not empty: every value whose [typeof] is neither ["object"]
    nor ["undefined"] (a boolean, a number, a bigint, a string, a symbol, a
    function) is lifted to a success that holds it, [false], [0], [NaN],
    [0n] and [""] included. *)
Theorem fromNullable_keeps_falsy (data : value) error s :
  typeof data <> "object" ->
  typeof data <> "undefined" ->
  fromNullable data error s
  = Return (length (heap s)) (mkStore (heap s ++ [Success data]) (world s)).
Proof.
  intros Hobj Hundef. unfold fromNullable.
  destruct data; simpl in *; try congruence;
    unfold bind, ret; simpl; apply of_eq.
Qed.

End Emptiness.

(** ** [StatusError] *)

(** [withDetails] replaces the details and nothing else: message and status
    are those of the receiver, the name is ["StatusError"], and of two calls
    in a row only the last one counts. *)
Theorem withDetails_last_wins (d1 d2 : string) (e : StatusError.t) :
  StatusError.withDetails d2 (StatusError.withDetails d1 e)
  = StatusError.withDetails d2 e /\
  StatusError.details (StatusError.withDetails d2 e) = Some d2 /\
  StatusError.message (StatusError.withDetails d2 e) = StatusError.message e /\
  StatusError.status (StatusError.withDetails d2 e) = StatusError.status e /\
  StatusError.name (StatusError.withDetails d2 e) = "StatusError".
Proof. repeat split. Qed.

(** ** The class [Result<V>] on [StatusError] *)

Section StatusRecovery.

Context {W : Type}.
Implicit Types (s : store StatusError.t (StatusResult.env W)) (this : loc)
  (v : value) (e : StatusError.t).

Lemma status_of_eq v s : StatusResult.of_ v s = of_ v s.
Proof. reflexivity. Qed.

Lemma status_failure_eq e s : StatusResult.failure e s = failure e s.
Proof. reflexivity. Qed.

(** [onErrorReturn] rebuilds a success as it is.  On a failure, a filter
    that is absent or falsy ([0], [-0], [NaN]) is no filter: the fallback
    replaces the error whatever its status.  A truthy filter [k] replaces
    the error exactly when [k === error.status]. *)
Theorem onErrorReturn_spec (newValue : value) this s :
  (forall v k,
     heap s !! this = Some (Success v) ->
     StatusResult.onErrorReturn newValue k this s
     = Return (length (heap s)) (mkStore (heap s ++ [Success v]) (world s))) /\
  (forall e k,
     heap s !! this = Some (Failure e) ->
     In k [None; Some (S754_zero false); Some (S754_zero true); Some S754_nan] ->
     StatusResult.onErrorReturn newValue k this s
     = Return (length (heap s)) (mkStore (heap s ++ [Success newValue]) (world s))) /\
  (forall e k,
     heap s !! this = Some (Failure e) ->
     number_truthy k = true ->
     StatusResult.onErrorReturn newValue (Some k) this s
     = Return (length (heap s))
         (mkStore (heap s ++ [if SFeqb k (StatusError.status e)
                              then Success newValue else Failure e])
                  (world s))).
Proof.
  split; [| split].
  - intros v k H. unfold StatusResult.onErrorReturn. js_method H.
    rewrite status_of_eq. apply of_eq.
  - intros e k H Hk. unfold StatusResult.onErrorReturn. js_method H.
    assert (Hfalsy : StatusResult.filter_truthy k = false).
    { simpl in Hk. destruct Hk as [<- | [<- | [<- | [<- | []]]]]; reflexivity. }
    rewrite Hfalsy. simpl. rewrite status_of_eq. apply of_eq.
  - intros e k H Hk. unfold StatusResult.onErrorReturn. js_method H.
    cbn [StatusResult.filter_truthy StatusResult.filter_matches].
    rewrite Hk. simpl.
    destruct (SFeqb k (StatusError.status e)).
    + rewrite status_of_eq. apply of_eq.
    + rewrite status_failure_eq. apply failure_eq.
Qed.

(** The status filter of the older class is the predicate filter of the
    generic one: [onErrorReturn(x, k)] does what [onFailureReturn(x, e =>
    e.status === k)] does when [k] is truthy, and what [onFailureReturn(x)]
    does when [k] is absent or falsy; on every receiver and store. *)
Theorem onErrorReturn_as_onFailureReturn (newValue : value)
    (statusFilter : option spec_float) this s :
  StatusResult.onErrorReturn newValue statusFilter this s
  = onFailureReturn newValue
      match statusFilter with
      | Some k => if number_truthy k then Some (has_status k) else None
      | None => None
      end this s.
Proof.
  unfold StatusResult.onErrorReturn, onFailureReturn, bind, deref.
  destruct (heap s !! this) as [[[e |] v] |]; try reflexivity. simpl.
  destruct statusFilter as [k |]; [| reflexivity]. simpl.
  destruct (number_truthy k); simpl; [| reflexivity].
  unfold call, has_status, pure, ret. simpl.
  destruct (SFeqb k (StatusError.status e)); destruct s; reflexivity.
Qed.

(** The four factories have four different statuses: with the status of
    one of them as filter, [onErrorReturn] recovers the errors that factory
    makes, whatever their message, and leaves the errors of the other three. *)
Theorem onErrorReturn_tells_factories_apart (i j : nat)
    (f g : option string -> StatusError.t) (m m' : option string)
    (newValue : value) this s :
  factories !! i = Some f ->
  factories !! j = Some g ->
  heap s !! this = Some (Failure (g m')) ->
  StatusResult.onErrorReturn newValue (Some (StatusError.status (f m))) this s
  = Return (length (heap s))
      (mkStore (heap s ++ [if Nat.eqb i j then Success newValue else Failure (g m')])
               (world s)).
Proof.
  intros Hf Hg H. unfold StatusResult.onErrorReturn. js_method H.
  destruct i as [| [| [| [| i]]]]; simpl in Hf; try discriminate Hf;
    injection Hf as <-;
    destruct j as [| [| [| [| j]]]]; simpl in Hg; try discriminate Hg;
    injection Hg as <-;
    simpl; first [rewrite status_of_eq; apply of_eq
                 | rewrite status_failure_eq; apply failure_eq].
Qed.

End StatusRecovery.

Section Logging.

Implicit Types (this : loc) (v : value) (e : StatusError.t)
  (h : list (t StatusError.t)) (lines : list (string * string)).

(** [logOnError] returns its receiver and constructs nothing.  On a
    success, and on a failure whose status is not [options.status] (500 when
    none is given), it writes nothing.  On a failure whose status is the one
    wanted it calls [logger.error] once, with [options.msg] if that is a
    non-empty string, and otherwise with ["Result contains error: "]
    followed by the error's name and message. *)
Theorem logOnError_spec (opts : option StatusResult.options) this h lines :
  let s := mkStore h (StatusResult.mkEnv recorder lines) in
  let text e :=
    match opts ≫= StatusResult.msg with
    | Some (String c m) => String c m
    | Some EmptyString | None =>
        ("Result contains error: " ++ StatusError.toString e)%string
    end in
  (forall v,
     h !! this = Some (Success v) ->
     StatusResult.logOnError opts this s = Return this s) /\
  (forall e,
     h !! this = Some (Failure e) ->
     SFeqb (StatusError.status e) (StatusResult.wanted_status opts) = false ->
     StatusResult.logOnError opts this s = Return this s) /\
  (forall e,
     h !! this = Some (Failure e) ->
     SFeqb (StatusError.status e) (StatusResult.wanted_status opts) = true ->
     StatusResult.logOnError opts this s
     = Return this
         (mkStore h (StatusResult.mkEnv recorder (lines ++ [("error", text e)])))).
Proof.
  intros s text. subst s text. split; [| split].
  - intros v H. unfold StatusResult.logOnError. js_method H. reflexivity.
  - intros e H Hne. unfold StatusResult.logOnError. js_method H.
    rewrite Hne. reflexivity.
  - intros e H Heq. unfold StatusResult.logOnError. js_method H.
    rewrite Heq. unfold StatusResult.has_msg.
    destruct (opts ≫= StatusResult.msg) as [[| c m] |]; reflexivity.
Qed.

(** [setLogger] takes effect at once and for the [error] method alone: a
    matching failure is then logged through the new logger's [error],
    whatever logger was set before and whatever the other four methods of the
    new one are. *)
Theorem setLogger_redirects (previous : Logger.t (list (string * string)))
    (debug info log warn : Logger.LogFunc (list (string * string)))
    (opts : option StatusResult.options) this h lines e :
  let current := Logger.mk debug info log warn (Logger.error recorder) in
  let text :=
    match opts ≫= StatusResult.msg with
    | Some (String c m) => String c m
    | Some EmptyString | None =>
        ("Result contains error: " ++ StatusError.toString e)%string
    end in
  h !! this = Some (Failure e) ->
  SFeqb (StatusError.status e) (StatusResult.wanted_status opts) = true ->
  bind (StatusResult.setLogger current) (fun _ => StatusResult.logOnError opts this)
       (mkStore h (StatusResult.mkEnv previous lines))
  = Return this
      (mkStore h (StatusResult.mkEnv current (lines ++ [("error", text)]))).
Proof.
  intros current text H Heq. subst current text.
  unfold bind, StatusResult.setLogger.
  cbn [heap world StatusResult.user].
  unfold StatusResult.logOnError. js_method H. rewrite Heq.
  unfold StatusResult.has_msg.
  destruct (opts ≫= StatusResult.msg) as [[| c m] |]; reflexivity.
Qed.

(** Details are never logged: for an error made by the constructor (its
    name is ["StatusError"]), [logOnError] writes the same lines for the
    error and for the error with details added, under the same options. *)
Theorem withDetails_not_logged (details : string) e
    (opts : option StatusResult.options) this h h' lines :
  StatusError.name e = "StatusError" ->
  h !! this = Some (Failure e) ->
  h' !! this = Some (Failure (StatusError.withDetails details e)) ->
  world (final (StatusResult.logOnError opts this
                  (mkStore h' (StatusResult.mkEnv recorder lines))))
  = world (final (StatusResult.logOnError opts this
                    (mkStore h (StatusResult.mkEnv recorder lines)))).
Proof.
  intros Hname H H'. unfold StatusResult.logOnError.
  erewrite (bind_deref this (mkStore h' _)) by exact H'.
  erewrite (bind_deref this (mkStore h _)) by exact H.
  cbn [_error Failure StatusError.withDetails StatusError.new StatusError.status].
  destruct (SFeqb (StatusError.status e) (StatusResult.wanted_status opts));
    [| reflexivity].
  unfold StatusError.toString. cbn [StatusError.name StatusError.message].
  rewrite Hname.
  destruct (StatusResult.has_msg opts); reflexivity.
Qed.

End Logging.

(** ** The further properties at concrete inputs *)

(** [applyOnFailure(e => new Error(`transformed: ${e.message}`))] on a
    failure, as in the test suite, and on [Result.of(42)]. *)
Lemma applyOnFailure_calls_once_witness :
  applyOnFailure (counted transformed) 0
    (mkStore [Failure (new_Error "original error")] (tt, 0))
  = Return 1 (mkStore [Failure (new_Error "original error");
                       Failure (new_Error "transformed: original error")] (tt, 1)) /\
  applyOnFailure (counted transformed) 0 (mkStore [Success (num 42)] (tt, 0))
  = Return 1 (mkStore [Success (num 42); Success (num 42)] (tt, 0)).
Proof.
  split.
  - apply (proj1 (applyOnFailure_calls_once transformed 0
                    [Failure (new_Error "original error")] tt 0)
             (new_Error "original error")
             (new_Error "transformed: original error") tt); reflexivity.
  - apply (proj2 (applyOnFailure_calls_once transformed 0
                    [Success (num 42)] tt 0) (num 42)).
    reflexivity.
Defined.

(** [fold] on [Result.of(42)] and on a failure, with handlers that compare
    the value with 40 and the message with ["different error"]. *)
Lemma fold_runs_one_handler_witness :
  fold (tagged "onData" gt40) (tagged "onError" is_different_error) 0
    (mkStore [@Success Error (num 42)] (tt, []))
  = Return true (mkStore [Success (num 42)] (tt, ["onData"])) /\
  fold (tagged "onData" gt40) (tagged "onError" is_different_error) 0
    (mkStore [Failure test_error] (tt, []))
  = Return false (mkStore [Failure test_error] (tt, ["onError"])).
Proof.
  split.
  - apply (proj1 (fold_runs_one_handler gt40 is_different_error 0
                    [@Success Error (num 42)] tt []) (num 42) true tt); reflexivity.
  - apply (proj2 (fold_runs_one_handler gt40 is_different_error 0
                    [Failure test_error] tt []) test_error false tt); reflexivity.
Defined.

(** [apply(x => x)] copies [Result.of(42)] and a failure. *)
Lemma apply_identity_witness :
  apply (pure (fun x => x)) 0 (mkStore [@Success Error (num 42)] tt)
  = Return 1 (mkStore [Success (num 42); Success (num 42)] tt) /\
  apply (pure (fun x => x)) 0 (mkStore [Failure test_error] tt)
  = Return 1 (mkStore [Failure test_error; Failure test_error] tt).
Proof.
  split.
  - apply (apply_identity 0 (mkStore [@Success Error (num 42)] tt) (Success (num 42)));
      [reflexivity | left; reflexivity].
  - apply (apply_identity 0 (mkStore [Failure test_error] tt) (Failure test_error));
      [reflexivity | right; reflexivity].
Defined.

(** On [Result.of(0)] the chain of the two peeks calls nothing; on
    [Result.of(42)] it calls the first, on a failure the second. *)
Lemma peek_then_onFailurePeek_witness :
  bind (peek (tagged "peek" (pure (fun _ => tt))) 0)
       (onFailurePeek (tagged "onFailurePeek" (pure (fun _ : Error => tt))))
       (mkStore [Success (num 0)] (tt, []))
  = Return 0 (mkStore [Success (num 0)] (tt, [])) /\
  bind (peek (tagged "peek" (pure (fun _ => tt))) 0)
       (onFailurePeek (tagged "onFailurePeek" (pure (fun _ : Error => tt))))
       (mkStore [Success (num 42)] (tt, []))
  = Return 0 (mkStore [Success (num 42)] (tt, ["peek"])) /\
  bind (peek (tagged "peek" (pure (fun _ => tt))) 0)
       (onFailurePeek (tagged "onFailurePeek" (pure (fun _ : Error => tt))))
       (mkStore [Failure test_error] (tt, []))
  = Return 0 (mkStore [Failure test_error] (tt, ["onFailurePeek"])).
Proof.
  split; [| split].
  - apply (peek_then_onFailurePeek (fun _ => tt) (fun _ : Error => tt) 0
             [Success (num 0)] tt [] (Success (num 0)));
      [reflexivity | left; reflexivity].
  - apply (peek_then_onFailurePeek (fun _ => tt) (fun _ : Error => tt) 0
             [Success (num 42)] tt [] (Success (num 42)));
      [reflexivity | left; reflexivity].
  - apply (peek_then_onFailurePeek (fun _ => tt) (fun _ : Error => tt) 0
             [Failure test_error] tt [] (Failure test_error));
      [reflexivity | right; reflexivity].
Defined.

(** A callback that throws ["boom"] takes [apply] on a success and
    [onFailureReturn] with a filter on a failure down with it. *)
Lemma callback_exceptions_propagate_witness :
  apply throws 0 (mkStore [@Success Error (num 42)] tt)
  = Throw (Thrown (str "boom")) (mkStore [Success (num 42)] tt) /\
  onFailureReturn (num 42) (Some throws) 0 (mkStore [Failure test_error] tt)
  = Throw (Thrown (str "boom")) (mkStore [Failure test_error] tt).
Proof.
  split.
  - apply (proj1 (callback_exceptions_propagate (E:=Error) 0
                    [Success (num 42)] tt (Thrown (str "boom")) tt)
             throws (num 42)); reflexivity.
  - pose proof (callback_exceptions_propagate 0 [Failure test_error] tt
                  (Thrown (str "boom")) tt) as (_ & _ & _ & _ & _ & Hfilter & _).
    apply (Hfilter (num 42) throws test_error); reflexivity.
Defined.

(** After [Result.of(42).apply(x => x * 2)] the heap is still well formed. *)
Lemma heap_stays_well_formed_witness :
  Forall well_formed [@Success Error (num 42)] /\
  Forall well_formed
    (heap (final (apply double 0 (mkStore [@Success Error (num 42)] tt)))).
Proof.
  assert (H : Forall well_formed [@Success Error (num 42)]).
  { constructor; [left; reflexivity | constructor]. }
  split; [exact H |].
  pose proof (@heap_stays_well_formed Error unit) as (_ & _ & _ & _ & _ & Happly & _).
  apply (Happly double 0 (mkStore [Success (num 42)] tt)). exact H.
Defined.

(** [new Array(2)] and an empty array with a property [foo] are lifted to
    failures; [[undefined]] and [new Array(2)] with a property [foo] to
    successes. *)
Lemma fromNullable_array_witness :
  fromNullable (array 2 []) test_error (mkStore [] tt)
  = Return 0 (mkStore [Failure test_error] tt) /\
  fromNullable (array 0 [("foo", true, num 1)]) test_error (mkStore [] tt)
  = Return 0 (mkStore [Failure test_error] tt) /\
  fromNullable (array_of [undefined]) test_error (mkStore [] tt)
  = Return 0 (mkStore [Success (array_of [undefined])] tt) /\
  fromNullable (array 2 [("foo", true, num 1)]) test_error (mkStore [] tt)
  = Return 0 (mkStore [Success (array 2 [("foo", true, num 1)])] tt).
Proof.
  split; [| split; [| split]].
  - apply (proj1 (fromNullable_array 2 [] test_error (mkStore [] tt))).
    right. constructor.
  - apply (proj1 (fromNullable_array 0 [("foo", true, num 1)] test_error
                    (mkStore [] tt))).
    left. reflexivity.
  - apply (proj2 (fromNullable_array 1 [("0", true, undefined)] test_error
                    (mkStore [] tt))).
    split; [discriminate | apply Exists_cons_hd; reflexivity].
  - apply (proj2 (fromNullable_array 2 [("foo", true, num 1)] test_error
                    (mkStore [] tt))).
    split; [discriminate | apply Exists_cons_hd; reflexivity].
Defined.

(** An object whose one property is not enumerable is lifted to a failure;
    [{ a: undefined }] to a success. *)
Lemma fromNullable_object_witness :
  fromNullable (object [("hidden", false, num 1)]) test_error (mkStore [] tt)
  = Return 0 (mkStore [Failure test_error] tt) /\
  fromNullable (object [("a", true, undefined)]) test_error (mkStore [] tt)
  = Return 0 (mkStore [Success (object [("a", true, undefined)])] tt).
Proof.
  split.
  - apply (proj1 (fromNullable_object [("hidden", false, num 1)] test_error
                    (mkStore [] tt))).
    repeat constructor.
  - apply (proj2 (fromNullable_object [("a", true, undefined)] test_error
                    (mkStore [] tt))).
    apply Exists_cons_hd. reflexivity.
Defined.

(** [0], [""] and [false] are falsy and are lifted to successes. *)
Lemma fromNullable_keeps_falsy_witness :
  (ToBoolean (num 0) = false /\
   fromNullable (num 0) test_error (mkStore [] tt)
   = Return 0 (mkStore [Success (num 0)] tt)) /\
  (ToBoolean (str "") = false /\
   fromNullable (str "") test_error (mkStore [] tt)
   = Return 0 (mkStore [Success (str "")] tt)) /\
  (ToBoolean (boolean false) = false /\
   fromNullable (boolean false) test_error (mkStore [] tt)
   = Return 0 (mkStore [Success (boolean false)] tt)).
Proof.
  split; [| split]; (split; [reflexivity |]).
  - apply (fromNullable_keeps_falsy (num 0) test_error (mkStore [] tt));
      discriminate.
  - apply (fromNullable_keeps_falsy (str "") test_error (mkStore [] tt));
      discriminate.
  - apply (fromNullable_keeps_falsy (boolean false) test_error (mkStore [] tt));
      discriminate.
Defined.

(** [onErrorReturn(42, 0)] recovers a 404, [onErrorReturn(42, 500)] does
    not, [onErrorReturn(42, 404)] does. *)
Lemma onErrorReturn_spec_witness :
  StatusResult.onErrorReturn (num 42) (Some (literal 0)) 0
    (mkStore [Failure (StatusError.NotFound None)] (StatusResult.mkEnv silent tt))
  = Return 1 (mkStore [Failure (StatusError.NotFound None); Success (num 42)]
                (StatusResult.mkEnv silent tt)) /\
  StatusResult.onErrorReturn (num 42) (Some (literal 500)) 0
    (mkStore [Failure (StatusError.NotFound None)] (StatusResult.mkEnv silent tt))
  = Return 1 (mkStore [Failure (StatusError.NotFound None);
                       Failure (StatusError.NotFound None)]
                (StatusResult.mkEnv silent tt)) /\
  StatusResult.onErrorReturn (num 42) (Some (literal 404)) 0
    (mkStore [Failure (StatusError.NotFound None)] (StatusResult.mkEnv silent tt))
  = Return 1 (mkStore [Failure (StatusError.NotFound None); Success (num 42)]
                (StatusResult.mkEnv silent tt)).
Proof.
  pose proof (onErrorReturn_spec (num 42) 0
                (mkStore [Failure (StatusError.NotFound None)]
                   (StatusResult.mkEnv silent tt))) as (_ & Hfalsy & Htruthy).
  split; [| split].
  - apply (Hfalsy (StatusError.NotFound None) (Some (literal 0))); [reflexivity |].
    right. left. reflexivity.
  - apply (Htruthy (StatusError.NotFound None) (literal 500)); reflexivity.
  - apply (Htruthy (StatusError.NotFound None) (literal 404)); reflexivity.
Defined.

(** With the status of [BadRequest] as filter, a [BadRequest] is recovered
    and a [Forbidden] is not. *)
Lemma onErrorReturn_tells_factories_apart_witness :
  StatusResult.onErrorReturn (num 0)
    (Some (StatusError.status (StatusError.BadRequest None))) 0
    (mkStore [Failure (StatusError.BadRequest (Some "no id"))]
       (StatusResult.mkEnv silent tt))
  = Return 1 (mkStore [Failure (StatusError.BadRequest (Some "no id"));
                       Success (num 0)] (StatusResult.mkEnv silent tt)) /\
  StatusResult.onErrorReturn (num 0)
    (Some (StatusError.status (StatusError.BadRequest None))) 0
    (mkStore [Failure (StatusError.Forbidden None)]
       (StatusResult.mkEnv silent tt))
  = Return 1 (mkStore [Failure (StatusError.Forbidden None);
                       Failure (StatusError.Forbidden None)]
                (StatusResult.mkEnv silent tt)).
Proof.
  split.
  - apply (onErrorReturn_tells_factories_apart 2 2
             StatusError.BadRequest StatusError.BadRequest None (Some "no id"));
      reflexivity.
  - apply (onErrorReturn_tells_factories_apart 2 3
             StatusError.BadRequest StatusError.Forbidden None None);
      reflexivity.
Defined.

(** [logOnError()] logs an [Internal] error with the default text and not
    a [NotFound]; [logOnError({ msg: "", status: 404 })] logs the
    [NotFound], with the default text as the message is empty. *)
Lemma logOnError_spec_witness :
  StatusResult.logOnError None 0
    (mkStore [Failure (StatusError.Internal None)] (StatusResult.mkEnv recorder []))
  = Return 0
      (mkStore [Failure (StatusError.Internal None)]
         (StatusResult.mkEnv recorder
            [("error", "Result contains error: StatusError: Internal Error")])) /\
  StatusResult.logOnError None 0
    (mkStore [Failure (StatusError.NotFound None)] (StatusResult.mkEnv recorder []))
  = Return 0
      (mkStore [Failure (StatusError.NotFound None)] (StatusResult.mkEnv recorder [])) /\
  StatusResult.logOnError
    (Some (StatusResult.mkOptions (Some "") (Some (literal 404)))) 0
    (mkStore [Failure (StatusError.NotFound None)] (StatusResult.mkEnv recorder []))
  = Return 0
      (mkStore [Failure (StatusError.NotFound None)]
         (StatusResult.mkEnv recorder
            [("error", "Result contains error: StatusError: Not Found")])).
Proof.
  split; [| split].
  - apply (proj2 (proj2 (logOnError_spec None 0
                           [Failure (StatusError.Internal None)] []))
             (StatusError.Internal None)); reflexivity.
  - apply (proj1 (proj2 (logOnError_spec None 0
                           [Failure (StatusError.NotFound None)] []))
             (StatusError.NotFound None)); reflexivity.
  - apply (proj2 (proj2 (logOnError_spec
                           (Some (StatusResult.mkOptions (Some "") (Some (literal 404))))
                           0 [Failure (StatusError.NotFound None)] []))
             (StatusError.NotFound None)); reflexivity.
Defined.

(** After [setLogger], [logOnError({ msg: "lookup failed" })] on an
    [Internal] error writes to the new logger. *)
Lemma setLogger_redirects_witness :
  bind (StatusResult.setLogger recorder)
       (fun _ => StatusResult.logOnError
                   (Some (StatusResult.mkOptions (Some "lookup failed") None)) 0)
       (mkStore [Failure (StatusError.Internal None)]
          (StatusResult.mkEnv silent [("info", "started")]))
  = Return 0
      (mkStore [Failure (StatusError.Internal None)]
         (StatusResult.mkEnv recorder
            [("info", "started"); ("error", "lookup failed")])).
Proof.
  apply (setLogger_redirects silent (Logger.debug recorder) (Logger.info recorder)
           (Logger.log recorder) (Logger.warn recorder)
           (Some (StatusResult.mkOptions (Some "lookup failed") None)) 0
           [Failure (StatusError.Internal None)] [("info", "started")]
           (StatusError.Internal None)); reflexivity.
Defined.

(** [NotFound("no user").withDetails("id 7")] is logged as the error
    without details is. *)
Lemma withDetails_not_logged_witness :
  world (final (StatusResult.logOnError
                  (Some (StatusResult.mkOptions None (Some (literal 404)))) 0
                  (mkStore [Failure (StatusError.withDetails "id 7"
                                       (StatusError.NotFound (Some "no user")))]
                     (StatusResult.mkEnv recorder []))))
  = world (final (StatusResult.logOnError
                    (Some (StatusResult.mkOptions None (Some (literal 404)))) 0
                    (mkStore [Failure (StatusError.NotFound (Some "no user"))]
                       (StatusResult.mkEnv recorder [])))).
Proof.
  apply (withDetails_not_logged "id 7" (StatusError.NotFound (Some "no user"))
           (Some (StatusResult.mkOptions None (Some (literal 404)))) 0
           [Failure (StatusError.NotFound (Some "no user"))]
           [Failure (StatusError.withDetails "id 7"
                       (StatusError.NotFound (Some "no user")))] []);
    reflexivity.
Defined.
